(** * obs_controller: a shallow embedding of [OBSController]

    The development follows [src/obs_controller/controller.py].

    - Part I models the replay directory (the files that
      [replay_save_path.glob('*.mp4')], [Path.stat] and [os.remove] see) and
      the three methods that only touch it: [get_latest_video],
      [check_and_manage_folder_size] and [cleanup_videos].
    - Part II models the controller object, the [obsws] session objects it
      allocates, the two decorators and the session methods.

    Python integers are unbounded, so sizes are [Z].  Timestamps
    ([st_mtime], [st_ctime], [st_atime], [time.time()]) are floats in the
    source; the code only compares and adds them, so they are modelled as
    integer clock readings, in seconds: [time.sleep(1)] advances the clock
    by one, a remote call or a directory scan by a number of seconds that
    the environment chooses. *)

From Stdlib Require Import ZArith List String Ascii Bool Lia DecimalString.
From Stdlib Require Import Permutation Sorted.
Import ListNotations.

Local Open Scope string_scope.
Local Open Scope list_scope.
Local Open Scope Z_scope.

(** ** Exceptions and outcomes *)

(** The five classes of [exceptions.py], and the built-in ones the
    controller meets.  Every handler in the controller is
    [except Exception], except the [AttributeError] clause of
    [is_connected]. *)
Inductive exn : Type :=
| OBSConnectionError
| OBSReplayError
| OBSVideoError
| OBSWebSocketError
| OBSProcessError
| RuntimeError
| AttributeError
| FileNotFoundError
| PermissionError
| LibraryError.

(** A Python call either returns a value or raises. *)
Inductive outcome (A : Type) : Type :=
| Return (a : A)
| Raise (e : exn).
Arguments Return {A} a.
Arguments Raise {A} e.

Definition obind {A B : Type} (m : outcome A) (k : A -> outcome B) : outcome B :=
  match m with
  | Return a => k a
  | Raise e => Raise e
  end.

Notation "x <-! m ;; k" := (obind m (fun x => k))
  (at level 61, m at next level, right associativity).

(** [str.lower()] on ASCII letters. *)
Definition lower_ascii (c : ascii) : ascii :=
  let n := nat_of_ascii c in
  if (Nat.leb 65 n && Nat.leb n 90)%bool then ascii_of_nat (n + 32) else c.

Fixpoint lower (s : string) : string :=
  match s with
  | EmptyString => EmptyString
  | String c r => String (lower_ascii c) (lower r)
  end.

(** * Part I: the replay directory *)

Module Fs.

(** The fields of [os.stat_result] the controller reads. *)
Record stat_result : Type := mk_stat {
  st_size : Z;
  st_mtime : Z;
  st_ctime : Z;
  st_atime : Z
}.

(** One directory entry, in the order the directory scan yields them.
    [meta = None] is an entry whose [stat()] raises (a dangling link);
    [locked = true] is a file [os.remove] cannot delete (held open by the
    recorder: [PermissionError] on Windows). *)
Record entry : Type := mk_entry {
  path : string;
  meta : option stat_result;
  locked : bool
}.

Definition directory : Type := list entry.

Definition has_path (p : string) (e : entry) : bool := String.eqb (path e) p.

(** The pattern ['*.mp4'] of [Path.glob]; the controller is Windows-only
    (it imports [win32com]) and pathlib matches case-insensitively there. *)
Definition is_mp4 (p : string) : bool :=
  let q := lower p in
  let n := String.length q in
  (Nat.leb 4 n && String.eqb (substring (n - 4) 4 q) ".mp4")%bool.

(** [self.replay_save_path.glob('*.mp4')]: the matching paths, in scan order. *)
Definition glob (d : directory) : list string :=
  map path (filter (fun e => is_mp4 (path e)) d).

(** [Path.stat()] against the current directory state. *)
Definition stat (d : directory) (p : string) : outcome stat_result :=
  match find (has_path p) d with
  | Some e =>
      match meta e with
      | Some s => Return s
      | None => Raise FileNotFoundError
      end
  | None => Raise FileNotFoundError
  end.

(** [os.remove(p)]. *)
Definition os_remove (d : directory) (p : string) : outcome directory :=
  match find (has_path p) d with
  | Some e =>
      if locked e then Raise PermissionError
      else Return (filter (fun e' => negb (has_path p e')) d)
  | None => Raise FileNotFoundError
  end.

(** *** [max(iterable, key=..., default=None)]

    CPython keeps the first item and replaces it only when a later key is
    strictly greater; a key function that raises aborts the call. *)
Fixpoint max_loop (key : string -> outcome Z) (items : list string)
    (best : option (string * Z)) : outcome (option (string * Z)) :=
  match items with
  | [] => Return best
  | item :: rest =>
      val <-! key item ;;
      match best with
      | None => max_loop key rest (Some (item, val))
      | Some (_, maxval) =>
          if val >? maxval then max_loop key rest (Some (item, val))
          else max_loop key rest best
      end
  end.

Definition py_max (key : string -> outcome Z) (items : list string)
  : outcome (option string) :=
  r <-! max_loop key items None ;;
  Return (option_map fst r).

(** *** [sorted(iterable, key=...)]

    Keys are computed once per item, then the items are sorted by key;
    the sort is stable. *)
Fixpoint decorate (key : string -> outcome Z) (items : list string)
  : outcome (list (Z * string)) :=
  match items with
  | [] => Return []
  | item :: rest =>
      k <-! key item ;;
      ks <-! decorate key rest ;;
      Return ((k, item) :: ks)
  end.

Fixpoint insert_by_key (x : Z * string) (l : list (Z * string)) : list (Z * string) :=
  match l with
  | [] => [x]
  | y :: t => if fst x <=? fst y then x :: y :: t else y :: insert_by_key x t
  end.

Fixpoint stable_sort (l : list (Z * string)) : list (Z * string) :=
  match l with
  | [] => []
  | x :: t => insert_by_key x (stable_sort t)
  end.

Definition py_sorted (key : string -> outcome Z) (items : list string)
  : outcome (list string) :=
  ks <-! decorate key items ;;
  Return (map snd (stable_sort ks)).

(** [sum(f.stat().st_size for f in items)]. *)
Fixpoint sum_sizes (d : directory) (items : list string) : outcome Z :=
  match items with
  | [] => Return 0
  | f :: rest =>
      s <-! stat d f ;;
      t <-! sum_sizes d rest ;;
      Return (st_size s + t)
  end.

(** *** [get_latest_video] *)

(** The dictionary [get_latest_video] returns. *)
Record VideoFileInfo : Type := mk_info {
  info_path : string;
  modification_time : string;
  creation_time : string;
  access_time : string
}.

Section LatestVideo.

(** [time.strftime('%Y-%m-%d %H:%M:%S', time.localtime(t))], a function of
    the standard library and of the host's time zone. *)
Variable strftime_local : Z -> string.

Definition get_latest_video (d : directory) : option VideoFileInfo :=
  match py_max (fun p => s <-! stat d p ;; Return (st_mtime s)) (glob d) with
  | Return None => None
  | Return (Some latest_video) =>
      match stat d latest_video with
      | Return video_stats =>
          Some {| info_path := latest_video;
                  modification_time := strftime_local (st_mtime video_stats);
                  creation_time := strftime_local (st_ctime video_stats);
                  access_time := strftime_local (st_atime video_stats) |}
      | Raise _ => None
      end
  | Raise _ => None
  end.

End LatestVideo.

(** *** [cleanup_videos] and [check_and_manage_folder_size] *)

(** The state of the [while] loop of [cleanup_videos]. *)
Record cleanup_state : Type := mk_cleanup {
  videos : list string;
  current_size : Z;
  disk : directory
}.

(** The loop [while videos and current_size > self.max_folder_size];
    each turn pops the head of [videos], so the recursion is on that list. *)
Fixpoint cleanup_loop (max_folder_size : Z) (vs : list string)
    (size : Z) (d : directory) : cleanup_state :=
  match vs with
  | [] => mk_cleanup [] size d
  | oldest_video :: rest =>
      if size >? max_folder_size then
        match os_remove d oldest_video with
        | Return d' =>
            match stat d' oldest_video with
            | Return removed => cleanup_loop max_folder_size rest (size - st_size removed) d'
            | Raise _ => cleanup_loop max_folder_size rest size d'
            end
        | Raise _ => cleanup_loop max_folder_size rest size d
        end
      else mk_cleanup vs size d
  end.

Definition sorted_videos (d : directory) : outcome (list string) :=
  py_sorted (fun f => s <-! stat d f ;; Return (st_ctime s)) (glob d).

Definition cleanup_videos_state (max_folder_size : Z) (d : directory)
  : outcome cleanup_state :=
  vs <-! sorted_videos d ;;
  size <-! sum_sizes d vs ;;
  Return (cleanup_loop max_folder_size vs size d).

Definition cleanup_videos (max_folder_size : Z) (d : directory) : outcome directory :=
  st <-! cleanup_videos_state max_folder_size d ;;
  Return (disk st).

Definition check_and_manage_folder_size (max_folder_size : Z) (d : directory)
  : outcome directory :=
  total_size <-! sum_sizes d (glob d) ;;
  if total_size >? max_folder_size then cleanup_videos max_folder_size d
  else Return d.

(** *** Vocabulary of the statements *)

(** Some matching entry cannot be read: the scan raises. *)
Definition unreadable (d : directory) : Prop :=
  exists p e, In p (glob d) /\ stat d p = Raise e.

(** Would [os.remove(p)] be refused because the file is held open. *)
Definition is_locked (d : directory) (p : string) : bool :=
  match find (has_path p) d with
  | Some e => locked e
  | None => false
  end.

(** The creation and modification times [stat] reports for a path. *)
Definition ctime_of (d : directory) (p : string) : Z :=
  match stat d p with
  | Return s => st_ctime s
  | Raise _ => 0
  end.

Definition mem (p : string) (l : list string) : bool := existsb (String.eqb p) l.

(** Which entries a set of attempted deletions leaves on disk. *)
Definition kept (d : directory) (attempted : list string) (e : entry) : bool :=
  negb (mem (path e) attempted) || is_locked d (path e).

(** The order [sorted] puts decorated items in. *)
Definition key_le (x y : Z * string) : Prop := fst x <= fst y.

Definition MB : Z := 1024 * 1024.

(** The scenario directory: [clipA.mp4] (100MB, older), [clipB.mp4] (50MB). *)
Definition clipA : entry :=
  mk_entry "clipA.mp4" (Some (mk_stat (100 * MB) 10 10 10)) false.
Definition clipB : entry :=
  mk_entry "clipB.mp4" (Some (mk_stat (50 * MB) 20 20 20)) false.
Definition scenario_dir : directory := [clipA; clipB].

(** The same two clips beside a text file, with [clipA.mp4] held open by
    the recorder. *)
Definition locked_dir : directory :=
  [mk_entry "notes.txt" (Some (mk_stat 12 5 5 5)) false;
   mk_entry "clipA.mp4" (Some (mk_stat (100 * MB) 10 10 10)) true;
   clipB].

End Fs.

(** * Part II: the controller and its sessions *)

Module Obs.

(** ** Objects *)

(** An [obsws] client object of the obs-websocket-py library.  Its [ws]
    attribute (the socket) is [None] until [connect()] creates it; the
    socket carries the [connected] flag that [is_connected] reads. *)
Record obsws : Type := mk_obsws {
  o_host : string;
  o_port : Z;
  o_password : string;
  sock : option bool
}.

(** References to [obsws] objects are their positions in the heap. *)
Definition ref : Type := nat.

(** The requests the controller sends through [obsws.call]. *)
Inductive request : Type :=
| SaveReplayBuffer
| StartReplayBuffer
| StopReplayBuffer
| GetVersion.

(** What leaves the Python process: traffic on a session, and process
    control. *)
Inductive event : Type :=
| EvConnect (r : ref)
| EvDisconnect (r : ref)
| EvCall (r : ref) (q : request)
| EvSpawn (command : list string)
| EvTerminate (pid : nat).

(** The attributes [__init__] sets. *)
Record OBSController : Type := mk_controller {
  host : string;
  port : Z;
  password : string;
  ws : option ref;
  process_name : string;
  replay_save_path : string;
  cwd : string;
  obs_profiles_path : string;
  obs_global_ini : string;
  module_profile_path : string;
  max_folder_size : Z;
  timeout : Z;
  process : option nat
}.

(** The keyword arguments [__init__] looks up; a path given as the empty
    string is falsy and gives the default. *)
Record kwargs : Type := mk_kwargs {
  kw_replay_path : option string;
  kw_obs_path : option string;
  kw_max_folder_size : option Z;
  kw_timeout : option Z
}.

Definition no_kwargs : kwargs := mk_kwargs None None None None.

Definition init (password0 : string) (port0 : Z) (host0 : string) (kw : kwargs)
  : OBSController :=
  {| host := host0;
     port := port0;
     password := password0;
     ws := None;
     process_name := "obs64.exe";
     replay_save_path :=
       match kw_replay_path kw with
       | Some (String c p) => String c p
       | _ => "%USERPROFILE%/Videos"
       end;
     cwd :=
       match kw_obs_path kw with
       | Some (String c p) => (String c p ++ "/bin/64bit")%string
       | _ => "C:/Program Files/obs-studio/bin/64bit"
       end;
     obs_profiles_path := "%AppData%/obs-studio/basic/profiles";
     obs_global_ini := "%AppData%/obs-studio/global.ini";
     module_profile_path := "profiles/obs_controller";
     max_folder_size :=
       match kw_max_folder_size kw with
       | Some n => n
       | None => 1024 * 1024 * 1024 * 5
       end;
     timeout :=
       match kw_timeout kw with
       | Some t => t
       | None => 300
       end;
     process := None |}.

(** The machine state a method runs in: the controller object [self], the
    heap of [obsws] objects, the events emitted so far (oldest first) and
    the clock [time.time()] reads, in seconds. *)
Record state : Type := mk_state {
  self : OBSController;
  heap : list obsws;
  trace : list event;
  clock : Z
}.

(** What the outside world answers during one method call. *)
Record env : Type := mk_env {
  (** [len(ExecQuery("SELECT * FROM Win32_Process WHERE Name = ..."))],
      or the exception the WMI calls raise *)
  wmi_exec_query : string -> outcome nat;
  (** does [obsws.connect()] succeed *)
  connect_ok : bool;
  (** does [obsws.disconnect()] succeed *)
  close_ok : bool;
  (** does [obsws.call(...)] return *)
  call_ok : bool;
  (** the pid [subprocess.Popen] yields, or its failure *)
  popen : outcome nat;
  (** the string [getObsVersion()] yields *)
  obs_version : string;
  (** seconds one [obsws.call] takes *)
  call_duration : N;
  (** seconds one directory scan takes *)
  scan_duration : N;
  (** what the replay directory holds at each clock reading *)
  dir_at : Z -> Fs.directory
}.

(** ** A state and exception monad *)

Definition M (A : Type) : Type := state -> outcome A * state.

Definition ret {A : Type} (a : A) : M A := fun s => (Return a, s).

Definition raise {A : Type} (e : exn) : M A := fun s => (Raise e, s).

Definition bind {A B : Type} (m : M A) (k : A -> M B) : M B :=
  fun s =>
    match m s with
    | (Return a, s') => k a s'
    | (Raise e, s') => (Raise e, s')
    end.

Notation "x <- m ;; k" := (bind m (fun x => k))
  (at level 61, m at next level, right associativity).
Notation "m ;;; k" := (bind m (fun _ => k))
  (at level 61, right associativity).

(** [try: m  except Exception as e: handler e]. *)
Definition try_except {A : Type} (m : M A) (handler : exn -> M A) : M A :=
  fun s =>
    match m s with
    | (Return a, s') => (Return a, s')
    | (Raise e, s') => handler e s'
    end.

(** [try: m  finally: fin]: [fin] runs on both exits; when it raises, its
    exception replaces the outcome of [m]. *)
Definition try_finally {A : Type} (m : M A) (fin : M unit) : M A :=
  fun s =>
    match m s with
    | (r, s') =>
        match fin s' with
        | (Return _, s'') => (r, s'')
        | (Raise e, s'') => (Raise e, s'')
        end
    end.

Definition get : M state := fun s => (Return s, s).

Definition lift {A : Type} (o : outcome A) : M A := fun s => (o, s).

(** [self.ws = w] and [self.process = p]. *)
Definition with_ws (c : OBSController) (w : option ref) : OBSController :=
  mk_controller (host c) (port c) (password c) w (process_name c)
    (replay_save_path c) (cwd c) (obs_profiles_path c) (obs_global_ini c)
    (module_profile_path c) (max_folder_size c) (timeout c) (process c).

Definition with_process (c : OBSController) (p : option nat) : OBSController :=
  mk_controller (host c) (port c) (password c) (ws c) (process_name c)
    (replay_save_path c) (cwd c) (obs_profiles_path c) (obs_global_ini c)
    (module_profile_path c) (max_folder_size c) (timeout c) p.

Definition set_ws (w : option ref) : M unit :=
  fun s => (Return tt, mk_state (with_ws (self s) w) (heap s) (trace s) (clock s)).

Definition set_process (p : option nat) : M unit :=
  fun s => (Return tt, mk_state (with_process (self s) p) (heap s) (trace s) (clock s)).

Definition emit (ev : event) : M unit :=
  fun s => (Return tt, mk_state (self s) (heap s) (trace s ++ [ev])%list (clock s)).

(** [time.time()]. *)
Definition time_time : M Z := fun s => (Return (clock s), s).

Definition advance (dt : Z) : M unit :=
  fun s => (Return tt, mk_state (self s) (heap s) (trace s) (clock s + dt)).

(** [time.sleep(secs)]. *)
Definition time_sleep (secs : Z) : M unit := advance secs.

(** ** The obs-websocket-py client, as the controller uses it *)

Fixpoint set_nth {A : Type} (n : nat) (x : A) (l : list A) : list A :=
  match l, n with
  | [], _ => []
  | _ :: t, O => x :: t
  | y :: t, S m => y :: set_nth m x t
  end.

Definition set_sock (r : ref) (b : option bool) : M unit :=
  fun s =>
    match nth_error (heap s) r with
    | Some o =>
        (Return tt,
         mk_state (self s)
           (set_nth r (mk_obsws (o_host o) (o_port o) (o_password o) b) (heap s))
           (trace s) (clock s))
    | None => (Return tt, s)
    end.

(** [obsws(host, port, password)]: a fresh object, no socket yet. *)
Definition obsws_new (h : string) (p : Z) (pw : string) : M ref :=
  fun s =>
    (Return (List.length (heap s)),
     mk_state (self s) (heap s ++ [mk_obsws h p pw None])%list (trace s) (clock s)).

Section Client.

Variable e : env.

(** [o.connect()]: the socket is created, then connected. *)
Definition obsws_connect (r : ref) : M unit :=
  emit (EvConnect r) ;;;
  if connect_ok e then set_sock r (Some true)
  else set_sock r (Some false) ;;; raise LibraryError.

(** [o.disconnect()]: a close that fails leaves the socket as it was. *)
Definition obsws_disconnect (r : ref) : M unit :=
  emit (EvDisconnect r) ;;;
  if close_ok e then set_sock r (Some false)
  else raise LibraryError.

(** [o.call(request)]. *)
Definition obsws_call (r : ref) (q : request) : M unit :=
  emit (EvCall r q) ;;;
  advance (Z.of_N (call_duration e)) ;;;
  if call_ok e then ret tt else raise LibraryError.

(** [o.ws.connected]: [AttributeError] when [o.ws] is [None]. *)
Definition sock_connected (r : ref) : M bool :=
  s <- get ;;
  match nth_error (heap s) r with
  | Some o =>
      match sock o with
      | Some b => ret b
      | None => raise AttributeError
      end
  | None => raise AttributeError
  end.

(** [self.ws.<method>]: [AttributeError] when [self.ws] is [None]. *)
Definition self_ws : M ref :=
  s <- get ;;
  match ws (self s) with
  | Some r => ret r
  | None => raise AttributeError
  end.

(** ** The properties and decorators *)

(** Truth value of what [is_process_running] returns: [True], [False], or
    [None] when the function falls off its end. *)
Definition truthy (v : option bool) : bool :=
  match v with
  | Some b => b
  | None => false
  end.

(** [is_connected]: both [except] clauses return [False]. *)
Definition is_connected : M bool :=
  try_except
    (s <- get ;;
     match ws (self s) with
     | None => ret false
     | Some r => sock_connected r
     end)
    (fun _ => ret false).

(** [is_process_running]: the [except] clause only logs, so the function
    then ends without a [return] and yields [None].  The [finally] clause
    ([CoUninitialize]) touches nothing the controller reads. *)
Definition is_process_running : M (option bool) :=
  try_except
    (s <- get ;;
     n <- lift (wmi_exec_query e (lower (process_name (self s)))) ;;
     ret (Some (Nat.ltb 0 n)))
    (fun _ => ret None).

Definition require_connection {A : Type} (f : M A) : M A :=
  c <- is_connected ;;
  if negb c then raise OBSWebSocketError else f.

Definition require_process_running {A : Type} (f : M A) : M A :=
  r <- is_process_running ;;
  if negb (truthy r) then raise OBSProcessError else f.

(** ** The session methods *)

Definition connect : M bool :=
  require_process_running
    (try_except
       (s <- get ;;
        r <- obsws_new (host (self s)) (port (self s)) (password (self s)) ;;
        set_ws (Some r) ;;;
        obsws_connect r ;;;
        ret true)
       (fun _ => ret false)).

Definition disconnect : M bool :=
  s <- get ;;
  match ws (self s) with
  | None => ret false
  | Some r =>
      try_finally
        (try_except
           (obsws_disconnect r ;;; ret true)
           (fun _ => raise OBSConnectionError))
        (set_ws None)
  end.

Definition websocket_connection_health_check : M bool :=
  try_except
    (s <- get ;;
     r <- obsws_new (host (self s)) (port (self s)) (password (self s)) ;;
     obsws_connect r ;;;
     obsws_disconnect r ;;;
     ret true)
    (fun _ => ret false).

Definition start_replay_buffer : M bool :=
  require_connection
    (try_except
       (r <- self_ws ;; obsws_call r StartReplayBuffer ;;; ret true)
       (fun _ => ret false)).

Definition stop_replay_buffer : M bool :=
  require_connection
    (try_except
       (r <- self_ws ;; obsws_call r StopReplayBuffer ;;; ret true)
       (fun _ => ret false)).

Definition get_obs_version : M string :=
  s <- get ;;
  r <- obsws_new (host (self s)) (port (self s)) (password (self s)) ;;
  try_finally
    (try_except
       (obsws_connect r ;;; obsws_call r GetVersion ;;; ret (obs_version e))
       (fun _ => ret "Unknown"))
    (try_except (obsws_disconnect r) (fun _ => ret tt)).

Definition launch_obs : M unit :=
  running <- is_process_running ;;
  if truthy running then ret tt
  else
    try_except
      (s <- get ;;
       let path := (cwd (self s) ++ "/" ++ process_name (self s))%string in
       let command :=
         [path; "--minimize-to-tray"; "--disable-updater";
          "--disable-shutdown-check"; "--profile"; "obs_controller"] in
       emit (EvSpawn command) ;;;
       pid <- lift (popen e) ;;
       set_process (Some pid))
      (fun _ => ret tt).

Definition cleanup : M unit :=
  try_except
    (s <- get ;;
     match ws (self s) with
     | Some r =>
         c <- sock_connected r ;;
         if c then obsws_disconnect r else ret tt
     | None => ret tt
     end ;;;
     match process (self s) with
     | Some pid => emit (EvTerminate pid)
     | None => ret tt
     end)
    (fun _ => ret tt).

(** ** [save_replay] *)

Variable strftime_local : Z -> string.

(** [self.get_latest_video()]: the directory as it is at this clock
    reading; the scan takes [scan_duration] seconds. *)
Definition self_get_latest_video : M (option Fs.VideoFileInfo) :=
  s <- get ;;
  advance (Z.of_N (scan_duration e)) ;;;
  ret (Fs.get_latest_video strftime_local (dir_at e (clock s))).

(** The two branches of the loop body that return [True]. *)
Definition new_file_seen (latest_file_before latest_file_after : option Fs.VideoFileInfo)
  : bool :=
  match latest_file_before, latest_file_after with
  | None, Some _ => true
  | Some b, Some a => negb (String.eqb (Fs.info_path b) (Fs.info_path a))
  | _, None => false
  end.

(** The loop [while time.time() <= deadline].  [fuel] bounds the number of
    turns; [None] is returned when it runs out. *)
Fixpoint poll (fuel : nat) (latest_file_before : option Fs.VideoFileInfo)
    (deadline : Z) : M (option bool) :=
  now <- time_time ;;
  if now <=? deadline then
    match fuel with
    | O => ret None
    | S fuel' =>
        latest_file_after <- self_get_latest_video ;;
        if new_file_seen latest_file_before latest_file_after then ret (Some true)
        else time_sleep 1 ;;; poll fuel' latest_file_before deadline
    end
  else ret (Some false).

Definition save_replay (fuel : nat) : M (option bool) :=
  require_connection
    (latest_file_before <- self_get_latest_video ;;
     now <- time_time ;;
     s <- get ;;
     let deadline := now + timeout (self s) in
     try_except
       (r <- self_ws ;;
        obsws_call r SaveReplayBuffer ;;;
        poll fuel latest_file_before deadline)
       (fun _ => ret (Some false))).

End Client.

(** Turns of the polling loop that a timeout allows: the clock advances by
    at least one second per turn. *)
Definition poll_bound (timeout0 : Z) : nat := Z.to_nat (timeout0 + 1).

(** The number of sessions whose socket is connected. *)
Definition is_live (o : obsws) : bool :=
  match sock o with
  | Some true => true
  | _ => false
  end.

Definition live_sessions (h : list obsws) : nat := List.length (filter is_live h).

(** *** Vocabulary of the statements *)

(** What a query of [is_connected] answers in a state. *)
Definition connected_now (s : state) : bool :=
  match fst (is_connected s) with
  | Return b => b
  | Raise _ => false
  end.

(** The truth value a guard sees in [is_process_running]. *)
Definition running_now (e : env) (s : state) : bool :=
  match fst (is_process_running e s) with
  | Return v => truthy v
  | Raise _ => false
  end.

(** The handle of the controller, when there is one, refers to an
    allocated object. *)
Definition ws_valid (s : state) : Prop :=
  forall r, ws (self s) = Some r -> (r < List.length (heap s))%nat.

(** The object a method allocates, with its socket in a given condition. *)
Definition session_of (c : OBSController) (b : option bool) : obsws :=
  mk_obsws (host c) (port c) (password c) b.

(** What one poll of [save_replay] decides, at clock reading [t]. *)
Definition seen_at (e : env) (strftime_local : Z -> string)
    (before : option Fs.VideoFileInfo) (t : Z) : bool :=
  new_file_seen before (Fs.get_latest_video strftime_local (dir_at e t)).

(** Seconds from one poll to the next: the scan, then [time.sleep(1)]. *)
Definition poll_step (e : env) : Z := 1 + Z.of_N (scan_duration e).

(** A stand-in for [strftime]: the decimal digits of the reading. *)
Definition render (t : Z) : string := NilEmpty.string_of_int (Z.to_int t).

(** Worlds and states used as concrete inputs. *)
Definition obs_up : env :=
  mk_env (fun _ => Return 1%nat) true true true (Return 4242%nat) "30.2.2" 0 0
    (fun _ => []).

Definition obs_down : env :=
  mk_env (fun _ => Return 0%nat) true true true (Return 4242%nat) "30.2.2" 0 0
    (fun _ => []).

Definition wmi_broken : env :=
  mk_env (fun _ => Raise LibraryError) true true true (Return 4242%nat) "30.2.2" 0 0
    (fun _ => []).

Definition request_refused : env :=
  mk_env (fun _ => Return 1%nat) true true false (Return 4242%nat) "30.2.2" 0 0
    (fun _ => []).

Definition fresh : state :=
  mk_state (init "secret" 4455 "localhost" no_kwargs) [] [] 0.

Definition fresh_with_timeout (t : Z) : state :=
  mk_state (init "secret" 4455 "localhost" (mk_kwargs None None None (Some t)))
    [] [] 0.

(** A controller that has connected, with [timeout = t]. *)
Definition linked (t : Z) : state := snd (connect obs_up (fresh_with_timeout t)).

(** The recorder writes [clip1.mp4] two seconds after the start. *)
Definition clip1 : Fs.entry :=
  Fs.mk_entry "clip1.mp4" (Some (Fs.mk_stat (10 * Fs.MB) 2 2 2)) false.

Definition clip_arrives : env :=
  mk_env (fun _ => Return 1%nat) true true true (Return 4242%nat) "30.2.2" 0 0
    (fun t => if t <? 2 then [] else [clip1]).

(** The recorder keeps rewriting one file: same path, a new modification
    time at every reading. *)
Definition rewriting : env :=
  mk_env (fun _ => Return 1%nat) true true true (Return 4242%nat) "30.2.2" 0 0
    (fun t => [Fs.mk_entry "replay.mp4" (Some (Fs.mk_stat 1024 t 0 t)) false]).

(** *** The specification's wording, for the claims the code departs from *)

(** "Process running" is checked first and signals [OBSProcessError];
    "session connected" is checked second and signals [OBSWebSocketError]. *)
Definition guarded_in_order {A : Type} (e : env) (op : M A) (s : state) : Prop :=
  (running_now e s = false -> fst (op s) = Raise OBSProcessError) /\
  (running_now e s = true -> connected_now s = false ->
   fst (op s) = Raise OBSWebSocketError).


End Obs.

(** * Part III: the configuration files *)

Module Ini.
Import Obs.

(** ** Dictionaries and files *)

(** A Python [dict] with string keys, in insertion order. *)
Fixpoint dict_get {V : Type} (k : string) (d : list (string * V)) : option V :=
  match d with
  | [] => None
  | (k', v) :: t => if String.eqb k' k then Some v else dict_get k t
  end.

(** [d[k] = v]: the value is replaced where the key stands, or the pair is
    added at the end. *)
Fixpoint dict_set {V : Type} (k : string) (v : V) (d : list (string * V))
  : list (string * V) :=
  match d with
  | [] => [(k, v)]
  | (k', v') :: t =>
      if String.eqb k' k then (k, v) :: t else (k', v') :: dict_set k v t
  end.

(** The files the two methods read and write: path and content. *)
Definition files : Type := list (string * string).

(** The options of one section, and what a [ConfigParser] holds: the
    default section apart, then the sections in file order.  With
    [optionxform = str] the option names keep their case. *)
Definition options : Type := list (string * string).

Record config : Type := mk_config {
  defaults : options;
  sections : list (string * options)
}.

Definition empty_config : config := mk_config [] [].

Definition get_option (c : config) (sec opt : string) : option string :=
  match dict_get sec (sections c) with
  | Some opts => dict_get opt opts
  | None => None
  end.

(** The byte order mark, as UTF-8. *)
Definition bom : string :=
  String (ascii_of_nat 239) (String (ascii_of_nat 187) (String (ascii_of_nat 191) "")).

Fixpoint strip_prefix (pre s : string) : option string :=
  match pre, s with
  | EmptyString, _ => Some s
  | String a p, String b t => if Ascii.eqb a b then strip_prefix p t else None
  | String _ _, EmptyString => None
  end.

(** One leading mark taken off, when there is one: what decoding as
    ['utf-8-sig'] does, and what the test [content.startswith("\ufeff")]
    with [content[1:]] does to the decoded text. *)
Definition strip_bom (s : string) : string :=
  match strip_prefix bom s with
  | Some rest => rest
  | None => s
  end.

(** [p] lies in the directory [dir]. *)
Definition under (dir p : string) : bool := String.prefix (dir ++ "/") p.

(** [dir.exists()], in a store that holds files only. *)
Definition dir_exists (fs : files) (dir : string) : bool :=
  existsb (fun x => under dir (fst x)) fs.

(** [p.exists()]: a file stands at [p], or [p] is a directory. *)
Definition path_exists (fs : files) (p : string) : bool :=
  match dict_get p fs with
  | Some _ => true
  | None => dir_exists fs p
  end.

(** What [shutil.rmtree(dir)] leaves when it succeeds. *)
Definition rmtree (fs : files) (dir : string) : files :=
  filter (fun x => negb (under dir (fst x))) fs.

Section Library.

(** [ConfigParser.read_string] after the bytes of the file are read and
    decoded: it raises when the file cannot be read, when the bytes are not
    UTF-8 and when the text is not a configuration. *)
Variable read_string : string -> outcome config.

(** [ConfigParser.read] on one file that exists. *)
Variable read_config_file : string -> outcome config.

(** [ConfigParser.write(f, space_around_delimiters=False)]. *)
Variable write_config : config -> string.

(** Does [BasicInterpolation.before_set] accept the value. *)
Variable before_set_ok : string -> bool.

(** [Path.as_posix()]. *)
Variable as_posix : string -> string.

(** Does [shutil.rmtree] fail on a directory, and the store it then
    leaves. *)
Variable rmtree_fails : bool.
Variable rmtree_leftover : files.

(** Does making the directory, opening the file for writing or the
    writing fail, and the store that is then left. *)
Variable write_fails : bool.
Variable write_leftover : files.

(** [config[sec][opt] = value]: [KeyError] when the section is
    missing, then [ValueError] when a value that is not empty is refused.
    Both are exceptions of the library here. *)
Definition set_item (c : config) (sec opt value : string) : outcome config :=
  match dict_get sec (sections c) with
  | None => Raise LibraryError
  | Some opts =>
      if negb (String.eqb value "") && negb (before_set_ok value) then Raise LibraryError
      else
        Return (mk_config (defaults c)
                  (dict_set sec (dict_set opt value opts) (sections c)))
  end.

(** [enable_websocket]: the whole body stands in one [try]; the file is
    opened for writing after the three assignments.  A directory at the
    path exists and cannot be opened. *)
Definition enable_websocket (self : OBSController) (fs : files) : outcome bool * files :=
  if negb (path_exists fs (obs_global_ini self)) then (Return false, fs)
  else
    match
      content <-! match dict_get (obs_global_ini self) fs with
                  | Some bytes => Return (strip_bom bytes)
                  | None => Raise PermissionError
                  end ;;
      let content := strip_bom content in
      config <-! read_string content ;;
      config <-! set_item config "OBSWebSocket" "ServerEnabled" "true" ;;
      config <-! set_item config "OBSWebSocket" "ServerPort" (render (port self)) ;;
      set_item config "OBSWebSocket" "ServerPassword" (password self)
    with
    | Return config =>
        if write_fails then (Raise RuntimeError, write_leftover)
        else
          (Return true,
           dict_set (obs_global_ini self) (bom ++ write_config config)%string fs)
    | Raise _ => (Raise RuntimeError, fs)
    end.

(** [set_default_profile]: [config.read] passes over a file that is not
    there, so a missing template shows as a missing section.  [rmtree]
    raises on a path that is a file. *)
Definition set_default_profile (self : OBSController) (fs : files)
  : outcome unit * files :=
  match
    config <-! match dict_get (module_profile_path self ++ "/basic.ini")%string fs with
               | Some text => read_config_file text
               | None => Return empty_config
               end ;;
    let replay_path_str := as_posix (replay_save_path self) in
    config <-! set_item config "SimpleOutput" "FilePath" replay_path_str ;;
    config <-! set_item config "AdvOut" "RecFilePath" replay_path_str ;;
    set_item config "AdvOut" "FFFilePath" replay_path_str
  with
  | Raise _ => (Raise RuntimeError, fs)
  | Return config =>
      let destination_path := (obs_profiles_path self ++ "/obs_controller")%string in
      let write := fun fs' : files =>
        if write_fails then (Raise RuntimeError, write_leftover)
        else
          (Return tt,
           dict_set (destination_path ++ "/basic.ini")%string (write_config config) fs') in
      if path_exists fs destination_path then
        match dict_get destination_path fs with
        | Some _ => (Raise RuntimeError, fs)
        | None =>
            if rmtree_fails then (Raise RuntimeError, rmtree_leftover)
            else write (rmtree fs destination_path)
        end
      else write fs
  end.

End Library.

(** [is_obs_installed]: does the executable exist in [cwd]. *)
Definition is_obs_installed (self : OBSController) (fs : files) : bool :=
  path_exists fs (cwd self ++ "/" ++ process_name self)%string.

End Ini.

(** * Further inputs *)

Module Inputs.
Import Fs.

(** A directory whose newest entry is a link to a file that is gone. *)
Definition dangling_dir : directory :=
  [clipA; mk_entry "lost.mp4" None false].

(** After a retention pass over [locked_dir] with a cap of 120MB. *)
Definition locked_after : directory :=
  [mk_entry "notes.txt" (Some (mk_stat 12 5 5 5)) false;
   mk_entry "clipA.mp4" (Some (mk_stat (100 * MB) 10 10 10)) true].

(** A clip written after the ones of [scenario_dir]. *)
Definition clipC : stat_result := mk_stat (7 * MB) 30 30 30.

(** Every scan of the directory takes two seconds; [clip6.mp4] is there
    from the sixth second on. *)
Definition slow_scan : Obs.env :=
  Obs.mk_env (fun _ => Return 1%nat) true true true (Return 4242%nat) "30.2.2" 0 2
    (fun t => if t <? 6 then []
              else [mk_entry "clip6.mp4" (Some (mk_stat (10 * MB) 6 6 6)) false]).

(** The save request takes five seconds to return and a scan one second;
    [replay.mp4] is there throughout. *)
Definition slow_request : Obs.env :=
  Obs.mk_env (fun _ => Return 1%nat) true true true (Return 4242%nat) "30.2.2" 5 1
    (fun _ => [mk_entry "replay.mp4" (Some (mk_stat 1024 0 0 0)) false]).

(** The process runs but refuses the connection. *)
Definition connect_refused : Obs.env :=
  Obs.mk_env (fun _ => Return 1%nat) false true true (Return 4242%nat) "30.2.2" 0 0
    (fun _ => []).

(** The session cannot be closed. *)
Definition close_refused : Obs.env :=
  Obs.mk_env (fun _ => Return 1%nat) true false true (Return 4242%nat) "30.2.2" 0 0
    (fun _ => []).

(** A controller that has launched the process and connected to it. *)
Definition supervised : Obs.state :=
  snd (Obs.connect Obs.obs_up (snd (Obs.launch_obs Obs.obs_down Obs.fresh))).

(** A [global.ini] with the WebSocket server switched off, a profile
    template, and an older profile directory with two files. *)
Definition global_ini : Ini.config :=
  Ini.mk_config []
    [("General", [("Language", "en-US")]);
     ("OBSWebSocket", [("ServerEnabled", "false"); ("ServerPort", "4444")])].

Definition template_ini : Ini.config :=
  Ini.mk_config []
    [("SimpleOutput", [("FilePath", "C:/old"); ("RecFormat", "mp4")]);
     ("AdvOut", [("RecFilePath", "C:/old")])].

Definition controller : Obs.OBSController := Obs.init "secret" 4455 "localhost" Obs.no_kwargs.

(** The same controller, told to record into [D:/clips]. *)
Definition recorder : Obs.OBSController :=
  Obs.init "secret" 4455 "localhost" (Obs.mk_kwargs (Some "D:/clips") None None None).

(** A controller whose password holds a percent sign. *)
Definition guest : Obs.OBSController := Obs.init "100%" 4455 "localhost" Obs.no_kwargs.

Definition disk_files : Ini.files :=
  [("%AppData%/obs-studio/global.ini", (Ini.bom ++ "[General]")%string);
   ("profiles/obs_controller/basic.ini", "[SimpleOutput]");
   ("%AppData%/obs-studio/basic/profiles/obs_controller/basic.ini", "old");
   ("%AppData%/obs-studio/basic/profiles/obs_controller/service.json", "{}")].

(** Stand-ins for the parser, the printer and the checks of the library. *)
Definition parse_global (text : string) : outcome Ini.config := Return global_ini.
Definition parse_template (text : string) : outcome Ini.config := Return template_ini.
Definition print_config (c : Ini.config) : string := "[printed]".
Definition no_percent (value : string) : bool :=
  match index 0 "%" value with
  | Some _ => false
  | None => true
  end.
Definition slashes (path : string) : string := path.

End Inputs.

(** * Part I, proved *)

Module FsTheory.
Import Fs.

(** ** The pattern *)

Example is_mp4_samples :
  is_mp4 "clipA.mp4" = true /\ is_mp4 "REPLAY.MP4" = true /\
  is_mp4 "notes.txt" = false /\ is_mp4 "mp4" = false /\
  glob locked_dir = ["clipA.mp4"; "clipB.mp4"].
Proof. repeat split. Qed.

(** ** [stat] and [os.remove] *)

Lemma find_has_path (d : directory) (p : string) (e : entry) :
  find (has_path p) d = Some e -> In e d /\ path e = p.
Proof.
  intros H. apply find_some in H. destruct H as [Hin Hp].
  split; [exact Hin|]. unfold has_path in Hp. now apply String.eqb_eq.
Qed.

Lemma find_after_filter_self (d : directory) (p : string) :
  find (has_path p) (filter (fun e' => negb (has_path p e')) d) = None.
Proof.
  induction d as [|x d IH]; simpl; [reflexivity|].
  destruct (has_path p x) eqn:E; simpl; [exact IH|].
  now rewrite E.
Qed.

Lemma find_after_filter_other (d : directory) (p q : string) :
  q <> p ->
  find (has_path q) (filter (fun e' => negb (has_path p e')) d) = find (has_path q) d.
Proof.
  intros Hne. induction d as [|x d IH]; simpl; [reflexivity|].
  destruct (has_path p x) eqn:E; simpl.
  - destruct (has_path q x) eqn:F; [|exact IH].
    unfold has_path in E, F. apply String.eqb_eq in E, F. congruence.
  - now rewrite IH.
Qed.

(** A path that was just removed cannot be [stat]ed any more. *)
Lemma stat_after_remove (d d' : directory) (p : string) :
  os_remove d p = Return d' -> stat d' p = Raise FileNotFoundError.
Proof.
  unfold os_remove, stat. destruct (find (has_path p) d) as [e|]; [|discriminate].
  destruct (locked e); [discriminate|]. intros H. injection H as <-.
  now rewrite find_after_filter_self.
Qed.

Lemma os_remove_refused (d : directory) (p : string) (e : exn) :
  os_remove d p = Raise e ->
  find (has_path p) d = None \/ is_locked d p = true.
Proof.
  unfold os_remove, is_locked. destruct (find (has_path p) d) as [x|]; [|now left].
  destruct (locked x); [now right|discriminate].
Qed.

Lemma os_remove_done (d d' : directory) (p : string) :
  os_remove d p = Return d' ->
  is_locked d p = false /\ d' = filter (fun e' => negb (has_path p e')) d.
Proof.
  unfold os_remove, is_locked. destruct (find (has_path p) d) as [x|]; [|discriminate].
  destruct (locked x); [discriminate|]. intros H. injection H as <-. now split.
Qed.

(** ** The loop of [cleanup_videos] *)

(** The running total is never reduced: the size of the removed file is
    asked of a path that no longer exists. *)
Lemma cleanup_loop_size (cap : Z) (vs : list string) (size : Z) (d : directory) :
  current_size (cleanup_loop cap vs size d) = size.
Proof.
  revert d. induction vs as [|p vs IH]; intros d; simpl; [reflexivity|].
  destruct (size >? cap); [|reflexivity].
  destruct (os_remove d p) as [d'|ex] eqn:E; [|apply IH].
  rewrite (stat_after_remove _ _ _ E). apply IH.
Qed.

Lemma cleanup_loop_over (cap : Z) (vs : list string) (size : Z) (d : directory) :
  size > cap -> videos (cleanup_loop cap vs size d) = [].
Proof.
  intros Hover. revert d. induction vs as [|p vs IH]; intros d; simpl; [reflexivity|].
  destruct (Z.gtb_spec size cap); [|lia].
  destruct (os_remove d p) as [d'|ex] eqn:E; [|apply IH].
  rewrite (stat_after_remove _ _ _ E). apply IH.
Qed.

Lemma cleanup_loop_within (cap : Z) (vs : list string) (size : Z) (d : directory) :
  size <= cap -> cleanup_loop cap vs size d = mk_cleanup vs size d.
Proof.
  intros Hle. destruct vs as [|p vs]; simpl; [reflexivity|].
  destruct (Z.gtb_spec size cap); [lia|reflexivity].
Qed.

Lemma filter_filter_and {A : Type} (f g : A -> bool) (l : list A) :
  filter f (filter g l) = filter (fun x => g x && f x) l.
Proof.
  induction l as [|x l IH]; simpl; [reflexivity|].
  destruct (g x); simpl; [destruct (f x)|]; now rewrite IH.
Qed.

Lemma is_locked_after_remove (d : directory) (p q : string) :
  q <> p ->
  is_locked (filter (fun e' => negb (has_path p e')) d) q = is_locked d q.
Proof. intros H. unfold is_locked. now rewrite find_after_filter_other. Qed.

Lemma cleanup_loop_disk (cap : Z) (vs : list string) (size : Z) (d : directory) :
  exists attempted,
    vs = attempted ++ videos (cleanup_loop cap vs size d) /\
    disk (cleanup_loop cap vs size d) = filter (kept d attempted) d.
Proof.
  revert d. induction vs as [|p vs IH]; intros d; simpl.
  - exists []. split; [reflexivity|]. symmetry. now apply forallb_filter_id, forallb_forall.
  - destruct (size >? cap).
    2:{ exists []. split; [reflexivity|]. symmetry.
        now apply forallb_filter_id, forallb_forall. }
    destruct (os_remove d p) as [d'|ex] eqn:E.
    + rewrite (stat_after_remove _ _ _ E).
      apply os_remove_done in E. destruct E as [Hunl ->].
      destruct (IH (filter (fun e' => negb (has_path p e')) d)) as [att [Hvs Hd]].
      exists (p :: att). split; [simpl; now f_equal|].
      rewrite Hd, filter_filter_and. apply filter_ext_in. intros x Hx.
      unfold kept, mem, has_path. simpl.
      destruct (String.eqb_spec (path x) p) as [->|Hne]; simpl.
      * now rewrite Hunl.
      * pose proof (is_locked_after_remove d p (path x) Hne) as L.
        unfold has_path in L. now rewrite L.
    + destruct (IH d) as [att [Hvs Hd]].
      exists (p :: att). split; [simpl; now f_equal|].
      rewrite Hd. apply filter_ext_in. intros x Hx.
      unfold kept, mem. simpl.
      destruct (String.eqb_spec (path x) p) as [Heq|Hne]; simpl; [|reflexivity].
      apply os_remove_refused in E. destruct E as [E|E].
      * exfalso. apply (find_none _ _ E) in Hx. unfold has_path in Hx.
        apply String.eqb_neq in Hx. contradiction.
      * rewrite Heq, E. now rewrite orb_true_r.
Qed.

(** ** [sorted] is a stable sort *)

Lemma decorate_spec (key : string -> outcome Z) (items : list string)
    (ks : list (Z * string)) :
  decorate key items = Return ks ->
  map snd ks = items /\ (forall y, In y ks -> key (snd y) = Return (fst y)).
Proof.
  revert ks. induction items as [|p items IH]; simpl; intros ks H.
  - injection H as <-. split; [reflexivity|]. intros y [].
  - unfold obind in H. destruct (key p) as [k|] eqn:Ek; [|discriminate].
    destruct (decorate key items) as [ks'|]; [|discriminate].
    injection H as <-. destruct (IH ks' eq_refl) as [Hm Hk].
    split; [simpl; now f_equal|].
    intros y [<-|Hy]; [exact Ek|now apply Hk].
Qed.

Lemma decorate_total (key : string -> outcome Z) (items : list string) :
  (forall p, In p items -> exists k, key p = Return k) ->
  exists ks, decorate key items = Return ks.
Proof.
  induction items as [|p items IH]; simpl; intros H; [now eexists|].
  destruct (H p (or_introl eq_refl)) as [k ->].
  destruct IH as [ks ->]; [intros q Hq; apply H; now right|].
  simpl. now eexists.
Qed.

Lemma insert_perm (x : Z * string) (l : list (Z * string)) :
  Permutation (insert_by_key x l) (x :: l).
Proof.
  induction l as [|y t IH]; simpl; [reflexivity|].
  destruct (fst x <=? fst y); [reflexivity|].
  rewrite IH. apply perm_swap.
Qed.

Lemma stable_sort_perm (l : list (Z * string)) : Permutation (stable_sort l) l.
Proof.
  induction l as [|x t IH]; simpl; [reflexivity|].
  rewrite insert_perm. now constructor.
Qed.

Lemma insert_sorted (x : Z * string) (l : list (Z * string)) :
  StronglySorted key_le l -> StronglySorted key_le (insert_by_key x l).
Proof.
  induction 1 as [|y t Hs IH Hall]; simpl; [repeat constructor|].
  destruct (Z.leb_spec (fst x) (fst y)) as [Hle|Hlt].
  - constructor; [now constructor|].
    constructor; [exact Hle|].
    eapply Forall_impl; [|exact Hall]. unfold key_le. intros; lia.
  - constructor; [exact IH|].
    apply Forall_forall. intros z Hz.
    apply (Permutation_in _ (insert_perm x t)) in Hz. destruct Hz as [<-|Hz].
    + unfold key_le. lia.
    + rewrite Forall_forall in Hall. now apply Hall.
Qed.

Lemma stable_sort_sorted (l : list (Z * string)) : StronglySorted key_le (stable_sort l).
Proof.
  induction l as [|x t IH]; simpl; [constructor|now apply insert_sorted].
Qed.

(** Items of one key keep the order they had. *)
Lemma insert_stable (k : Z) (x : Z * string) (l : list (Z * string)) :
  filter (fun y => fst y =? k) (insert_by_key x l) =
  filter (fun y => fst y =? k) (x :: l).
Proof.
  induction l as [|y t IH]; [reflexivity|].
  cbn [insert_by_key]. destruct (Z.leb_spec (fst x) (fst y)) as [Hle|Hlt]; [reflexivity|].
  cbn [filter] in *. rewrite IH.
  destruct (Z.eqb_spec (fst x) k), (Z.eqb_spec (fst y) k); try reflexivity. lia.
Qed.

Lemma stable_sort_stable (k : Z) (l : list (Z * string)) :
  filter (fun y => fst y =? k) (stable_sort l) = filter (fun y => fst y =? k) l.
Proof.
  induction l as [|x t IH]; [reflexivity|].
  cbn [stable_sort]. rewrite insert_stable. cbn [filter]. now rewrite IH.
Qed.

Lemma sorted_on_paths (c : string -> Z) (l : list (Z * string)) :
  StronglySorted key_le l ->
  (forall y, In y l -> fst y = c (snd y)) ->
  StronglySorted (fun p q => c p <= c q) (map snd l).
Proof.
  induction 1 as [|y t Hs IH Hall]; intros Hc; simpl; constructor.
  - apply IH. intros z Hz. apply Hc. now right.
  - apply Forall_forall. intros q Hq. apply in_map_iff in Hq.
    destruct Hq as [z [<- Hz]]. rewrite Forall_forall in Hall.
    specialize (Hall z Hz). unfold key_le in Hall.
    rewrite <- (Hc y (or_introl eq_refl)), <- (Hc z (or_intror Hz)). exact Hall.
Qed.

Lemma ctime_key (d : directory) (p : string) (k : Z) :
  (s <-! stat d p ;; Return (st_ctime s)) = Return k ->
  ctime_of d p = k /\ exists s, stat d p = Return s.
Proof.
  unfold ctime_of, obind. destruct (stat d p) as [s|]; [|discriminate].
  intros H. injection H as <-. split; [reflexivity|now exists s].
Qed.

(** What [sorted(glob, key=ctime)] returns: the matching paths, by
    creation time, those of one creation time in scan order. *)
Lemma sorted_videos_spec (d : directory) (vs : list string) :
  sorted_videos d = Return vs ->
  Permutation vs (glob d) /\
  StronglySorted (fun p q => ctime_of d p <= ctime_of d q) vs /\
  (forall t, filter (fun p => ctime_of d p =? t) vs =
             filter (fun p => ctime_of d p =? t) (glob d)) /\
  (forall p, In p vs -> exists s, stat d p = Return s).
Proof.
  unfold sorted_videos, py_sorted, obind.
  destruct (decorate _ (glob d)) as [ks|] eqn:E; [|discriminate].
  intros H. injection H as <-.
  apply decorate_spec in E. destruct E as [Hm Hk].
  assert (Hc : forall y, In y (stable_sort ks) -> fst y = ctime_of d (snd y)).
  { intros y Hy. apply (Permutation_in _ (stable_sort_perm ks)) in Hy.
    symmetry. now apply ctime_key, Hk. }
  repeat split.
  - rewrite <- Hm. apply Permutation_map, stable_sort_perm.
  - apply sorted_on_paths; [apply stable_sort_sorted|exact Hc].
  - intros t. rewrite <- Hm, !filter_map_swap. f_equal.
    rewrite (filter_ext_in (fun a => ctime_of d (snd a) =? t) (fun y => fst y =? t)).
    2:{ intros y Hy. now rewrite (Hc y Hy). }
    rewrite stable_sort_stable. apply filter_ext_in.
    intros y Hy. f_equal. symmetry. now apply ctime_key, Hk.
  - intros p Hp. apply in_map_iff in Hp. destruct Hp as [y [<- Hy]].
    apply (Permutation_in _ (stable_sort_perm ks)) in Hy.
    now apply (ctime_key d (snd y) (fst y)), Hk.
Qed.

Lemma sum_sizes_total (d : directory) (l : list string) :
  (forall p, In p l -> exists s, stat d p = Return s) ->
  exists t, sum_sizes d l = Return t.
Proof.
  induction l as [|p l IH]; simpl; intros H; [now eexists|].
  destruct (H p (or_introl eq_refl)) as [s ->].
  destruct IH as [t ->]; [intros q Hq; apply H; now right|].
  simpl. now eexists.
Qed.

Lemma mem_In (p : string) (l : list string) : mem p l = true <-> In p l.
Proof.
  unfold mem. rewrite existsb_exists. split.
  - intros [x [Hx E]]. apply String.eqb_eq in E. now subst.
  - intros H. exists p. split; [exact H|apply String.eqb_refl].
Qed.

Lemma NoDup_glob (d : directory) : NoDup (map path d) -> NoDup (glob d).
Proof.
  unfold glob. induction d as [|x d IH]; simpl; intros H; [constructor|].
  inversion H as [|? ? Hx Hd]; subst.
  destruct (is_mp4 (path x)); simpl; [|now apply IH].
  constructor; [|now apply IH].
  intros Hin. apply Hx. apply in_map_iff in Hin. destruct Hin as [y [E Hy]].
  apply filter_In in Hy. apply in_map_iff. exists y. tauto.
Qed.

Lemma In_glob (d : directory) (p : string) :
  In p (glob d) <-> exists e, In e d /\ path e = p /\ is_mp4 p = true.
Proof.
  unfold glob. rewrite in_map_iff. split.
  - intros [e [<- He]]. apply filter_In in He. exists e. tauto.
  - intros [e [He [<- Hm]]]. exists e. split; [reflexivity|]. apply filter_In. tauto.
Qed.

Lemma survivors_kept (d : directory) (att : list string) (p : string) :
  In p (glob (filter (kept d att) d)) <->
  In p (glob d) /\ (mem p att = false \/ is_locked d p = true).
Proof.
  rewrite !In_glob. split.
  - intros [e [He [<- Hm]]]. apply filter_In in He. destruct He as [He Hk].
    split; [exists e; tauto|]. unfold kept in Hk. apply orb_true_iff in Hk.
    destruct Hk as [Hk|Hk]; [left; now apply negb_true_iff|now right].
  - intros [[e [He [<- Hm]]] Hk]. exists e. repeat split; try assumption.
    apply filter_In. split; [exact He|]. unfold kept. apply orb_true_iff.
    destruct Hk as [Hk|Hk]; [left; now apply negb_true_iff|now right].
Qed.

Lemma cleanup_videos_state_runs (cap : Z) (d : directory) (vs : list string) :
  sorted_videos d = Return vs ->
  exists size,
    sum_sizes d vs = Return size /\
    cleanup_videos_state cap d = Return (cleanup_loop cap vs size d).
Proof.
  intros Hs. destruct (sorted_videos_spec d vs Hs) as (_ & _ & _ & Hstat).
  destruct (sum_sizes_total d vs Hstat) as [size Hsize].
  exists size. split; [exact Hsize|].
  unfold cleanup_videos_state. rewrite Hs. simpl. now rewrite Hsize.
Qed.

(** A scan that raises aborts [cleanup_videos] before anything is deleted. *)
Lemma cleanup_videos_scan_fails (cap : Z) (d : directory) (e : exn) :
  sorted_videos d = Raise e -> cleanup_videos cap d = Raise e.
Proof.
  intros H. unfold cleanup_videos, cleanup_videos_state. now rewrite H.
Qed.

(** Once the total exceeds the cap, every file that can be deleted is
    deleted: the running total never goes down, so the loop only stops when
    the list is exhausted. *)
Lemma cleanup_over_cap_empties (cap : Z) (d : directory) (vs : list string) (size : Z) :
  sorted_videos d = Return vs ->
  sum_sizes d vs = Return size ->
  size > cap ->
  (forall p, In p vs -> is_locked d p = false) ->
  exists st,
    cleanup_videos_state cap d = Return st /\
    videos st = [] /\ current_size st = size /\ glob (disk st) = [].
Proof.
  intros Hs Hsize Hover Hunl.
  exists (cleanup_loop cap vs size d).
  split; [unfold cleanup_videos_state; rewrite Hs; simpl; now rewrite Hsize|].
  split; [now apply cleanup_loop_over|].
  split; [apply cleanup_loop_size|].
  destruct (cleanup_loop_disk cap vs size d) as [att [Hvs Hd]].
  rewrite (cleanup_loop_over cap vs size d Hover), app_nil_r in Hvs. subst att.
  rewrite Hd.
  destruct (glob (filter (kept d vs) d)) as [|p l] eqn:E; [reflexivity|].
  exfalso.
  assert (Hp : In p (glob (filter (kept d vs) d))) by (rewrite E; now left).
  apply survivors_kept in Hp. destruct Hp as [Hg Hk].
  destruct (sorted_videos_spec d vs Hs) as (Hperm & _).
  apply (Permutation_in _ (Permutation_sym Hperm)) in Hg.
  destruct Hk as [Hk|Hk].
  - apply mem_In in Hg. congruence.
  - rewrite (Hunl p Hg) in Hk. discriminate.
Qed.

(** ** [max] returns the first item of greatest key *)

Section MaxLoop.

Variable key : string -> outcome Z.

Lemma max_loop_raise (items : list string) (best : option (string * Z)) (e : exn) :
  max_loop key items best = Raise e ->
  exists p e', In p items /\ key p = Raise e'.
Proof.
  revert best. induction items as [|item rest IH]; simpl; intros best H; [discriminate|].
  unfold obind in H. destruct (key item) as [val|e'] eqn:Ek.
  - assert (exists b, max_loop key rest b = Raise e) as [b Hb].
    { destruct best as [[bp bv]|]; [destruct (val >? bv)|]; eauto. }
    destruct (IH b Hb) as [p [e'' [Hin Hp]]]. exists p, e''. split; [now right|exact Hp].
  - exists item, e'. split; [now left|exact Ek].
Qed.

Lemma max_loop_keys (items : list string) (best r : option (string * Z)) :
  max_loop key items best = Return r ->
  forall q, In q items -> exists w, key q = Return w.
Proof.
  revert best. induction items as [|item rest IH]; simpl; intros best H q Hq; [contradiction|].
  unfold obind in H. destruct (key item) as [val|] eqn:Ek; [|discriminate].
  destruct Hq as [<-|Hq]; [now exists val|].
  assert (exists b, max_loop key rest b = Return r) as [b Hb].
  { destruct best as [[bp bv]|]; [destruct (val >? bv)|]; eauto. }
  exact (IH b Hb q Hq).
Qed.

Lemma max_loop_some (items : list string) (bp : string) (bv : Z)
    (r : option (string * Z)) :
  max_loop key items (Some (bp, bv)) = Return r ->
  exists p v,
    r = Some (p, v) /\ bv <= v /\
    (forall q w, In q items -> key q = Return w -> w <= v) /\
    ((p = bp /\ v = bv) \/
     (exists l1 l2,
        items = l1 ++ p :: l2 /\ key p = Return v /\ bv < v /\
        forall q w, In q l1 -> key q = Return w -> w < v)).
Proof.
  revert bp bv. induction items as [|item rest IH]; simpl; intros bp bv H.
  - injection H as <-. exists bp, bv. repeat split; [lia|intros q w []|now left].
  - unfold obind in H. destruct (key item) as [val|] eqn:Ek; [|discriminate].
    destruct (Z.gtb_spec val bv) as [Hgt|Hle].
    + destruct (IH _ _ H) as (p & v & -> & Hv & Hall & Hcase).
      exists p, v. split; [reflexivity|]. split; [lia|]. split.
      * intros q w [<-|Hq] Hw; [|now apply (Hall q)].
        rewrite Ek in Hw. injection Hw as <-. exact Hv.
      * right. destruct Hcase as [[-> ->]|(l1 & l2 & -> & Hk & Hlt & Hl1)].
        -- exists [], rest. repeat split; [exact Ek|lia|intros q w []].
        -- exists (item :: l1), l2. repeat split; [exact Hk|lia|].
           intros q w [<-|Hq] Hw; [|now apply (Hl1 q)].
           rewrite Ek in Hw. injection Hw as <-. exact Hlt.
    + destruct (IH _ _ H) as (p & v & -> & Hv & Hall & Hcase).
      exists p, v. split; [reflexivity|]. split; [exact Hv|]. split.
      * intros q w [<-|Hq] Hw; [|now apply (Hall q)].
        rewrite Ek in Hw. injection Hw as <-. lia.
      * destruct Hcase as [Hsame|(l1 & l2 & -> & Hk & Hlt & Hl1)]; [now left|].
        right. exists (item :: l1), l2. repeat split; [exact Hk|exact Hlt|].
        intros q w [<-|Hq] Hw; [|now apply (Hl1 q)].
        rewrite Ek in Hw. injection Hw as <-. lia.
Qed.

(** [max(items, key=key, default=None)], case by case. *)
Lemma py_max_spec (items : list string) :
  match py_max key items with
  | Raise _ => exists p e', In p items /\ key p = Raise e'
  | Return None => items = []
  | Return (Some p) =>
      exists v l1 l2,
        items = l1 ++ p :: l2 /\ key p = Return v /\
        (forall q w, In q items -> key q = Return w -> w <= v) /\
        (forall q w, In q l1 -> key q = Return w -> w < v) /\
        (forall q, In q items -> exists w, key q = Return w)
  end.
Proof.
  unfold py_max, obind.
  destruct (max_loop key items None) as [r|e] eqn:E; [|now apply max_loop_raise in E].
  pose proof (max_loop_keys _ _ _ E) as Hkeys.
  destruct items as [|item rest]; simpl in E.
  - injection E as <-. reflexivity.
  - unfold obind in E. destruct (key item) as [val|] eqn:Ek; [|discriminate].
    destruct (max_loop_some _ _ _ _ E) as (p & v & -> & Hv & Hall & Hcase).
    simpl. exists v.
    destruct Hcase as [[-> ->]|(l1 & l2 & -> & Hk & Hlt & Hl1)].
    + exists [], rest. repeat split; try assumption.
      * intros q w [<-|Hq] Hw; [|now apply (Hall q)].
        rewrite Ek in Hw. injection Hw as <-. lia.
      * intros q w [].
    + exists (item :: l1), l2. repeat split; try assumption.
      * intros q w [<-|Hq] Hw; [|now apply (Hall q)].
        rewrite Ek in Hw. injection Hw as <-. lia.
      * intros q w [<-|Hq] Hw; [|now apply (Hl1 q)].
        rewrite Ek in Hw. injection Hw as <-. exact Hlt.
Qed.

End MaxLoop.

Lemma mtime_key (d : directory) (p : string) (v : Z) :
  (s <-! stat d p ;; Return (st_mtime s)) = Return v <->
  exists s, stat d p = Return s /\ st_mtime s = v.
Proof.
  unfold obind. destruct (stat d p) as [s|]; split.
  - intros H. injection H as <-. now exists s.
  - intros [s' [H <-]]. now injection H as <-.
  - discriminate.
  - intros [s' [H _]]. discriminate.
Qed.

(** ** The claim on the newest file *)

(** C6, as the code has it: [get_latest_video] returns [None] exactly
    when no file matches ['*.mp4'] or the scan fails on an entry that
    cannot be read, whatever the other entries are; otherwise
    it returns the snapshot of a matching file whose modification time is
    at least that of every matching file, and among files of that greatest
    modification time the first in scan order.  Being a function, it has
    one result on every directory. *)
Theorem get_latest_video_spec (strftime_local : Z -> string) (d : directory) :
  (get_latest_video strftime_local d = None <-> glob d = [] \/ unreadable d) /\
  (forall info, get_latest_video strftime_local d = Some info ->
     exists s l1 l2,
       glob d = l1 ++ info_path info :: l2 /\
       stat d (info_path info) = Return s /\
       info = mk_info (info_path info) (strftime_local (st_mtime s))
                (strftime_local (st_ctime s)) (strftime_local (st_atime s)) /\
       (forall q s', In q (glob d) -> stat d q = Return s' -> st_mtime s' <= st_mtime s) /\
       (forall q s', In q l1 -> stat d q = Return s' -> st_mtime s' < st_mtime s)).
Proof.
  unfold get_latest_video.
  pose proof (py_max_spec (fun p => s <-! stat d p ;; Return (st_mtime s)) (glob d)) as H.
  destruct (py_max _ (glob d)) as [[p|]|e].
  - destruct H as (v & l1 & l2 & Hsplit & Hk & Hall & Hl1 & Hkeys).
    apply mtime_key in Hk. destruct Hk as [s [Hs <-]]. rewrite Hs. split.
    + split; [discriminate|]. intros [Hnil|(q & e & Hq & Hr)].
      * rewrite Hsplit in Hnil. now destruct l1.
      * destruct (Hkeys q Hq) as [w Hw]. apply mtime_key in Hw.
        destruct Hw as [s' [Hs' _]]. congruence.
    + intros info Hinfo. injection Hinfo as <-. simpl.
      exists s, l1, l2. repeat split; try assumption.
      * intros q s' Hq Hs'. apply (Hall q); [exact Hq|]. apply mtime_key. now exists s'.
      * intros q s' Hq Hs'. apply (Hl1 q); [exact Hq|]. apply mtime_key. now exists s'.
  - split; [|discriminate]. split; [now left|reflexivity].
  - split; [|discriminate]. split; [|reflexivity]. intros _. right.
    destruct H as (q & e' & Hq & He). exists q.
    unfold obind in He. destruct (stat d q) as [s|e''] eqn:Es; [discriminate|].
    now exists e''.
Qed.

(** C6, as the specification words it, fails: [clipA.mp4] matches and
    can be read, but [lost.mp4] beside it cannot, the scan raises on it,
    and [get_latest_video] returns [None] although a matching file
    exists. *)
Lemma latest_none_beside_a_readable_video :
  glob Inputs.dangling_dir = ["clipA.mp4"; "lost.mp4"] /\
  stat Inputs.dangling_dir "clipA.mp4" = Return (mk_stat (100 * MB) 10 10 10) /\
  stat Inputs.dangling_dir "lost.mp4" = Raise FileNotFoundError /\
  get_latest_video Obs.render Inputs.dangling_dir = None /\
  get_latest_video Obs.render [clipA] =
    Some (mk_info "clipA.mp4" "10" "10" "10").
Proof. repeat split; vm_compute; reflexivity. Qed.

(** ** The claims on retention *)

(** C1, at the scenario of the specification: with [clipA.mp4] (100MB,
    older), [clipB.mp4] (50MB) and a cap of 120MB, enforcement deletes both
    files.  After [os.remove(oldest_video)] the code asks
    [oldest_video.stat()] for the size to subtract; the file is gone, the
    call raises, and the running total stays at 150MB, so [clipB.mp4] is
    deleted too. *)
Theorem cleanup_videos_scenario_deletes_both :
  sum_sizes scenario_dir (glob scenario_dir) = Return (150 * MB) /\
  check_and_manage_folder_size (120 * MB) scenario_dir = Return [] /\
  cleanup_videos_state (120 * MB) scenario_dir = Return (mk_cleanup [] (150 * MB) []) /\
  stat scenario_dir "clipB.mp4" = Return (mk_stat (50 * MB) 20 20 20) /\
  50 * MB <= 120 * MB.
Proof. repeat split; vm_compute; congruence. Qed.

(** C7: the survivors of [cleanup_videos] are a suffix of the
    creation-time-sorted list of the files present at the start, together
    with the files of the removed prefix whose deletion failed; the sort
    is by creation time and keeps files of one creation time in the order
    of the directory scan. *)
Theorem cleanup_videos_survivors_suffix (cap : Z) (d : directory) (vs : list string) :
  NoDup (map path d) ->
  sorted_videos d = Return vs ->
  (Permutation vs (glob d) /\
   StronglySorted (fun p q => ctime_of d p <= ctime_of d q) vs /\
   (forall t, filter (fun p => ctime_of d p =? t) vs =
              filter (fun p => ctime_of d p =? t) (glob d))) /\
  exists st attempted,
    cleanup_videos_state cap d = Return st /\
    cleanup_videos cap d = Return (disk st) /\
    vs = attempted ++ videos st /\
    (forall p, In p (glob (disk st)) <->
               In p (videos st) \/ (In p attempted /\ is_locked d p = true)) /\
    ((forall p, In p attempted -> is_locked d p = false) ->
     forall p, In p (glob (disk st)) <-> In p (videos st)).
Proof.
  intros Hnd Hs.
  destruct (sorted_videos_spec d vs Hs) as (Hperm & Hsorted & Hstable & Hstat).
  split; [now repeat split|].
  destruct (cleanup_videos_state_runs cap d vs Hs) as [size [Hsize Hrun]].
  destruct (cleanup_loop_disk cap vs size d) as [att [Hvs Hd]].
  set (st := cleanup_loop cap vs size d) in *.
  assert (Hsurv : forall p, In p (glob (disk st)) <->
            In p (videos st) \/ (In p att /\ is_locked d p = true)).
  { intros p. rewrite Hd, survivors_kept.
    assert (Hndv : NoDup (att ++ videos st)).
    { rewrite <- Hvs. apply (Permutation_NoDup (Permutation_sym Hperm)).
      now apply NoDup_glob. }
    assert (Hin : In p (glob d) <-> In p att \/ In p (videos st)).
    { rewrite <- in_app_iff, <- Hvs. split; apply Permutation_in;
        [now apply Permutation_sym|exact Hperm]. }
    rewrite Hin. split.
    - intros [[Ha|Hv] Hk]; [|now left].
      destruct Hk as [Hk|Hk]; [|now right].
      apply mem_In in Ha. congruence.
    - intros [Hv|[Ha Hl]]; [|split; [now left|now right]].
      split; [now right|]. left.
      destruct (mem p att) eqn:Hm; [|reflexivity].
      apply mem_In in Hm. exfalso.
      apply in_split in Hm. destruct Hm as [l1 [l2 ->]].
      rewrite <- app_assoc in Hndv. simpl in Hndv.
      apply NoDup_remove_2 in Hndv. apply Hndv.
      rewrite !in_app_iff. tauto. }
  exists st, att.
  split; [exact Hrun|].
  split; [unfold cleanup_videos; now rewrite Hrun|].
  split; [exact Hvs|].
  split; [exact Hsurv|].
  intros Hunl p. rewrite Hsurv. split; [|now left].
  intros [Hp|[Ha Hl]]; [exact Hp|].
  rewrite (Hunl p Ha) in Hl. discriminate.
Qed.

Lemma cleanup_videos_survivors_suffix_witness :
  NoDup (map path locked_dir) /\
  sorted_videos locked_dir = Return ["clipA.mp4"; "clipB.mp4"] /\
  ((Permutation ["clipA.mp4"; "clipB.mp4"] (glob locked_dir) /\
    StronglySorted (fun p q => ctime_of locked_dir p <= ctime_of locked_dir q)
      ["clipA.mp4"; "clipB.mp4"] /\
    (forall t, filter (fun p => ctime_of locked_dir p =? t) ["clipA.mp4"; "clipB.mp4"] =
               filter (fun p => ctime_of locked_dir p =? t) (glob locked_dir))) /\
   exists st attempted,
     cleanup_videos_state (120 * MB) locked_dir = Return st /\
     cleanup_videos (120 * MB) locked_dir = Return (disk st) /\
     ["clipA.mp4"; "clipB.mp4"] = attempted ++ videos st /\
     (forall p, In p (glob (disk st)) <->
                In p (videos st) \/ (In p attempted /\ is_locked locked_dir p = true)) /\
     ((forall p, In p attempted -> is_locked locked_dir p = false) ->
      forall p, In p (glob (disk st)) <-> In p (videos st))).
Proof.
  assert (Hnd : NoDup (map path locked_dir)).
  { repeat constructor; simpl; intuition discriminate. }
  assert (Hs : sorted_videos locked_dir = Return ["clipA.mp4"; "clipB.mp4"])
    by reflexivity.
  split; [exact Hnd|]. split; [exact Hs|].
  exact (cleanup_videos_survivors_suffix (120 * MB) locked_dir
           ["clipA.mp4"; "clipB.mp4"] Hnd Hs).
Defined.

End FsTheory.

(** * Part II, proved *)

Module ObsTheory.
Import Obs.

(** ** The heap of session objects *)

Lemma set_nth_length {A : Type} (n : nat) (x : A) (l : list A) :
  List.length (set_nth n x l) = List.length l.
Proof.
  revert n. induction l as [|y t IH]; intros [|n]; simpl; try reflexivity.
  now rewrite IH.
Qed.

Lemma nth_error_set_nth_other {A : Type} (n m : nat) (x : A) (l : list A) :
  n <> m -> nth_error (set_nth n x l) m = nth_error l m.
Proof.
  revert n m. induction l as [|y t IH]; intros [|n] [|m] H; simpl; try reflexivity.
  - contradiction.
  - apply IH. congruence.
Qed.

Lemma set_nth_last {A : Type} (x y : A) (l : list A) :
  set_nth (List.length l) x (l ++ [y]) = l ++ [x].
Proof. induction l as [|z t IH]; simpl; [reflexivity|now rewrite IH]. Qed.

Lemma nth_error_last {A : Type} (y : A) (l : list A) :
  nth_error (l ++ [y]) (List.length l) = Some y.
Proof. induction l as [|z t IH]; simpl; [reflexivity|exact IH]. Qed.

Lemma nth_error_old {A : Type} (y : A) (l : list A) (r : nat) (o : A) :
  nth_error l r = Some o -> nth_error (l ++ [y]) r = Some o.
Proof.
  intros H. rewrite nth_error_app1; [exact H|].
  apply nth_error_Some. congruence.
Qed.

Lemma live_sessions_app (h1 h2 : list obsws) :
  live_sessions (h1 ++ h2) = (live_sessions h1 + live_sessions h2)%nat.
Proof. unfold live_sessions. now rewrite filter_app, length_app. Qed.

Lemma live_sessions_set_dead (r : ref) (o : obsws) (h : list obsws) :
  is_live o = false -> (live_sessions (set_nth r o h) <= live_sessions h)%nat.
Proof.
  intros Ho. unfold live_sessions. revert r.
  induction h as [|y t IH]; intros [|r]; simpl; try lia.
  - rewrite Ho. destruct (is_live y); simpl; lia.
  - specialize (IH r). destruct (is_live y); simpl; lia.
Qed.

(** ** Running the monad *)

Create HintDb obs.

#[local] Hint Unfold is_connected is_process_running require_connection
  require_process_running sock_connected self_ws obsws_connect obsws_disconnect
  obsws_call obsws_new set_sock set_ws set_process emit advance time_sleep
  time_time try_except try_finally bind ret raise get lift self_get_latest_video : obs.

Ltac mrun :=
  repeat progress
    (try autounfold with obs;
     cbn -[Z.add Z.mul Z.sub Z.leb Z.of_nat Z.of_N Z.to_nat poll_step];
     cbn [clock self heap trace fst snd]).

(** ** The two properties *)

(** [is_connected] reads the state and leaves it as it is. *)
Lemma is_connected_run (s : state) : is_connected s = (Return (connected_now s), s).
Proof.
  unfold connected_now. mrun.
  destruct (ws (self s)) as [r|]; [|reflexivity].
  mrun. destruct (nth_error (heap s) r) as [o|]; [|reflexivity].
  destruct (sock o); reflexivity.
Qed.

(** The answer of [is_connected] is that of the stored handle's socket. *)
Lemma connected_now_handle (s : state) :
  connected_now s =
  match ws (self s) with
  | Some r =>
      match nth_error (heap s) r with
      | Some o => is_live o
      | None => false
      end
  | None => false
  end.
Proof.
  unfold connected_now. mrun.
  destruct (ws (self s)) as [r|]; [|reflexivity].
  mrun. destruct (nth_error (heap s) r) as [o|]; [|reflexivity].
  unfold is_live. destruct (sock o) as [[|]|]; reflexivity.
Qed.

Lemma is_process_running_run (e : env) (s : state) :
  is_process_running e s =
  (Return match wmi_exec_query e (lower (process_name (self s))) with
          | Return n => Some (Nat.ltb 0 n)
          | Raise _ => None
          end, s).
Proof.
  mrun. destruct (wmi_exec_query e _); reflexivity.
Qed.

Lemma require_connection_run {A : Type} (f : M A) (s : state) :
  require_connection f s =
  if connected_now s then f s else (Raise OBSWebSocketError, s).
Proof.
  unfold require_connection, bind. rewrite is_connected_run.
  destruct (connected_now s); reflexivity.
Qed.

Lemma require_process_running_run {A : Type} (e : env) (f : M A) (s : state) :
  require_process_running e f s =
  if running_now e s then f s else (Raise OBSProcessError, s).
Proof.
  unfold require_process_running, running_now, bind.
  rewrite is_process_running_run. simpl.
  destruct (wmi_exec_query e _) as [n|]; simpl; [destruct (Nat.ltb 0 n)|]; reflexivity.
Qed.

(** ** What each session method does to the state *)

#[local] Arguments with_ws : simpl never.
#[local] Arguments with_process : simpl never.

Lemma connect_run (e : env) (s : state) :
  connect e s =
  if running_now e s then
    (Return (connect_ok e),
     mk_state (with_ws (self s) (Some (List.length (heap s))))
       (heap s ++ [session_of (self s) (Some (connect_ok e))])
       (trace s ++ [EvConnect (List.length (heap s))]) (clock s))
  else (Raise OBSProcessError, s).
Proof.
  unfold connect. rewrite require_process_running_run.
  destruct (running_now e s); [|reflexivity].
  destruct s as [c h t k].
  mrun. destruct (connect_ok e); mrun; rewrite nth_error_last; mrun;
    rewrite set_nth_last; reflexivity.
Qed.

Lemma disconnect_run (e : env) (s : state) :
  disconnect e s =
  match ws (self s) with
  | None => (Return false, s)
  | Some r =>
      (if close_ok e then Return true else Raise OBSConnectionError,
       mk_state (with_ws (self s) None)
         (if close_ok e then
            match nth_error (heap s) r with
            | Some o => set_nth r (mk_obsws (o_host o) (o_port o) (o_password o) (Some false)) (heap s)
            | None => heap s
            end
          else heap s)
         (trace s ++ [EvDisconnect r]) (clock s))
  end.
Proof.
  destruct s as [c h t k]. unfold disconnect. mrun.
  destruct (ws c) as [r|]; [|reflexivity].
  mrun. destruct (close_ok e); mrun; [|reflexivity].
  destruct (nth_error h r); reflexivity.
Qed.

Lemma health_check_run (e : env) (s : state) :
  websocket_connection_health_check e s =
  (Return (connect_ok e && close_ok e),
   mk_state (self s)
     (heap s ++ [session_of (self s)
                   (Some (connect_ok e && negb (close_ok e)))])
     (trace s ++ EvConnect (List.length (heap s)) ::
        (if connect_ok e then [EvDisconnect (List.length (heap s))] else []))
     (clock s)).
Proof.
  destruct s as [c h t k]. unfold websocket_connection_health_check.
  mrun. destruct (connect_ok e), (close_ok e); mrun;
    repeat (rewrite nth_error_last; mrun; rewrite set_nth_last);
    rewrite <- ?app_assoc; reflexivity.
Qed.

(** ** The polling loop of [save_replay] *)

Section Poll.

Variable e : env.
Variable strftime_local : Z -> string.
Variable before : option Fs.VideoFileInfo.
Variable deadline : Z.

(** The loop touches nothing but the clock, and always returns. *)
Lemma poll_frame (fuel : nat) (s : state) :
  exists v s',
    poll e strftime_local fuel before deadline s = (Return v, s') /\
    self s' = self s /\ heap s' = heap s /\ trace s' = trace s /\
    clock s <= clock s'.
Proof.
  revert s. induction fuel as [|n IH]; intros [c h t k]; cbn; mrun.
  - destruct (k <=? deadline); eexists _, _; (split; [reflexivity|]); cbn;
      repeat split; lia.
  - destruct (k <=? deadline).
    2:{ eexists _, _; (split; [reflexivity|]); cbn; repeat split; lia. }
    destruct (new_file_seen _ _).
    + eexists _, _; (split; [reflexivity|]); cbn; repeat split; lia.
    + mrun.
      destruct (IH (mk_state c h t (k + Z.of_N (scan_duration e) + 1)))
        as (v & s' & -> & Hc & Hh & Ht & Hk).
      cbn in *. eexists _, _; (split; [reflexivity|]); repeat split; try assumption. lia.
Qed.

(** With enough fuel, a loop that never sees a new file ends after the
    deadline, having slept at least once if it was entered in time. *)
Lemma poll_timeout (fuel : nat) (s : state) :
  (forall i : nat,
     clock s + Z.of_nat i * poll_step e <= deadline ->
     seen_at e strftime_local before (clock s + Z.of_nat i * poll_step e) = false) ->
  (Z.to_nat (deadline - clock s + 1) <= fuel)%nat ->
  exists s',
    poll e strftime_local fuel before deadline s = (Return (Some false), s') /\
    deadline < clock s' /\ clock s <= clock s' /\
    (clock s <= deadline -> clock s + poll_step e <= clock s').
Proof.
  revert s. induction fuel as [|n IH]; intros [c h t k] Hno Hfuel; cbn [clock] in *; mrun.
  - destruct (Z.leb_spec k deadline) as [Hle|Hgt]; [lia|].
    eexists; split; [reflexivity|]. cbn [clock]. repeat split; lia.
  - destruct (Z.leb_spec k deadline) as [Hle|Hgt]; mrun.
    2:{ eexists; split; [reflexivity|]. cbn [clock]. repeat split; lia. }
    pose proof (Hno 0%nat) as H0. rewrite Z.mul_0_l, Z.add_0_r in H0.
    unfold seen_at in H0. rewrite (H0 Hle). mrun.
    destruct (IH (mk_state c h t (k + Z.of_N (scan_duration e) + 1)))
      as (s' & -> & Hd & Hm & Hs).
    + cbn [clock]. intros i Hi.
      replace (k + Z.of_N (scan_duration e) + 1 + Z.of_nat i * poll_step e)
        with (k + Z.of_nat (S i) * poll_step e) in * by (unfold poll_step; lia).
      now apply Hno.
    + cbn [clock]. lia.
    + cbn [clock] in *. eexists; split; [reflexivity|]. split; [exact Hd|].
      unfold poll_step in *. split; lia.
Qed.

(** With enough fuel, a poll taken by the deadline that sees a new file
    ends the loop with success. *)
Lemma poll_success (fuel : nat) (s : state) (i : nat) :
  clock s + Z.of_nat i * poll_step e <= deadline ->
  seen_at e strftime_local before (clock s + Z.of_nat i * poll_step e) = true ->
  (Z.to_nat (deadline - clock s + 1) <= fuel)%nat ->
  exists s',
    poll e strftime_local fuel before deadline s = (Return (Some true), s').
Proof.
  revert s i. induction fuel as [|n IH]; intros [c h t k] i Hi Hseen Hfuel; cbn [clock] in *; mrun.
  - assert (0 <= Z.of_nat i * poll_step e)
      by (apply Z.mul_nonneg_nonneg; unfold poll_step; lia).
    lia.
  - assert (Hpos : 0 <= Z.of_nat i * poll_step e)
      by (apply Z.mul_nonneg_nonneg; unfold poll_step; lia).
    destruct (Z.leb_spec k deadline) as [Hle|Hgt]; [|lia]. mrun.
    destruct (new_file_seen before _) eqn:Hnow; [now eexists|].
    mrun. destruct i as [|j].
    { rewrite Z.mul_0_l, Z.add_0_r in Hseen. unfold seen_at in Hseen. congruence. }
    apply (IH (mk_state c h t (k + Z.of_N (scan_duration e) + 1)) j); cbn [clock].
    + replace (k + Z.of_N (scan_duration e) + 1 + Z.of_nat j * poll_step e)
        with (k + Z.of_nat (S j) * poll_step e) by (unfold poll_step; lia).
      exact Hi.
    + replace (k + Z.of_N (scan_duration e) + 1 + Z.of_nat j * poll_step e)
        with (k + Z.of_nat (S j) * poll_step e) by (unfold poll_step; lia).
      exact Hseen.
    + lia.
Qed.

(** A loop that ends with success saw a new file at a poll taken by the
    deadline. *)
Lemma poll_true_inv (fuel : nat) (s s' : state) :
  poll e strftime_local fuel before deadline s = (Return (Some true), s') ->
  exists i : nat,
    clock s + Z.of_nat i * poll_step e <= deadline /\
    seen_at e strftime_local before (clock s + Z.of_nat i * poll_step e) = true.
Proof.
  revert s. induction fuel as [|n IH]; intros [c h t k] H; cbn [clock] in *; revert H; mrun.
  - destruct (k <=? deadline); discriminate.
  - destruct (Z.leb_spec k deadline) as [Hle|Hgt]; [|discriminate]. mrun.
    destruct (new_file_seen before _) eqn:Hnow.
    + intros _. exists 0%nat. rewrite Z.mul_0_l, Z.add_0_r. split; [exact Hle|exact Hnow].
    + mrun. intros H. apply IH in H. cbn [clock] in H. destruct H as [i [Hi Hs]].
      exists (S i).
      replace (k + Z.of_nat (S i) * poll_step e)
        with (k + Z.of_N (scan_duration e) + 1 + Z.of_nat i * poll_step e)
        by (unfold poll_step; lia).
      now split.
Qed.

(** With enough fuel the loop gives its answer. *)
Lemma poll_total (fuel : nat) (s : state) :
  (Z.to_nat (deadline - clock s + 1) <= fuel)%nat ->
  exists b s',
    poll e strftime_local fuel before deadline s = (Return (Some b), s').
Proof.
  revert s. induction fuel as [|n IH]; intros [c h t k] Hfuel; cbn [clock] in *; mrun.
  - destruct (Z.leb_spec k deadline) as [Hle|Hgt]; [lia|now eexists _, _].
  - destruct (Z.leb_spec k deadline) as [Hle|Hgt]; mrun; [|now eexists _, _].
    destruct (new_file_seen before _); [now eexists _, _|].
    mrun. apply IH. cbn [clock]. lia.
Qed.

(** Past the deadline the loop body is not entered. *)
Lemma poll_late (fuel : nat) (s : state) :
  deadline < clock s ->
  poll e strftime_local fuel before deadline s = (Return (Some false), s).
Proof.
  intros Hlate. destruct s as [c h t k]. cbn [clock] in Hlate.
  destruct fuel; mrun; destruct (Z.leb_spec k deadline); (lia || reflexivity).
Qed.

End Poll.

(** ** [save_replay], from the guard to the loop *)

Lemma connected_now_ws (s : state) :
  connected_now s = true -> exists r, ws (self s) = Some r.
Proof.
  rewrite connected_now_handle. destruct (ws (self s)) as [r|]; [now exists r|discriminate].
Qed.

(** The state in which the loop of [save_replay] starts: the snapshot
    has been taken and the request sent. *)
Lemma save_replay_run (e : env) (strftime_local : Z -> string) (fuel : nat)
    (s : state) (r : ref) :
  connected_now s = true ->
  ws (self s) = Some r ->
  save_replay e strftime_local fuel s =
  let sent :=
    mk_state (self s) (heap s) (trace s ++ [EvCall r SaveReplayBuffer])
      (clock s + Z.of_N (scan_duration e) + Z.of_N (call_duration e)) in
  if call_ok e then
    poll e strftime_local fuel
      (Fs.get_latest_video strftime_local (dir_at e (clock s)))
      (clock s + Z.of_N (scan_duration e) + timeout (self s)) sent
  else (Return (Some false), sent).
Proof.
  intros Hc Hr. unfold save_replay. rewrite require_connection_run, Hc.
  destruct s as [c h t k]. cbn [self heap trace clock] in *. mrun. rewrite Hr. mrun.
  destruct (call_ok e); mrun; [|reflexivity].
  destruct (poll_frame e strftime_local
              (Fs.get_latest_video strftime_local (dir_at e k))
              (k + Z.of_N (scan_duration e) + timeout c) fuel
              (mk_state c h (t ++ [EvCall r SaveReplayBuffer])
                 (k + Z.of_N (scan_duration e) + Z.of_N (call_duration e))))
    as (v & s' & -> & _). reflexivity.
Qed.

(** On a connected session, [poll_bound] turns are enough for
    [save_replay] to return its boolean. *)
Lemma save_replay_returns (e : env) (strftime_local : Z -> string) (fuel : nat)
    (s : state) :
  connected_now s = true ->
  (poll_bound (timeout (self s)) <= fuel)%nat ->
  exists b, fst (save_replay e strftime_local fuel s) = Return (Some b).
Proof.
  intros Hc Hfuel. destruct (connected_now_ws s Hc) as [r Hr].
  rewrite (save_replay_run e strftime_local fuel s r Hc Hr). cbv zeta.
  destruct (call_ok e); [|now exists false].
  match goal with
  | |- context [poll e strftime_local fuel ?b ?d ?s0] =>
      destruct (poll_total e strftime_local b d fuel s0) as (v & s' & ->)
  end.
  - unfold poll_bound in Hfuel. cbn [clock]. lia.
  - now exists v.
Qed.

(** A request that raises is answered with [False] at once: no poll, no
    sleep. *)
Lemma save_replay_request_refused (e : env) (strftime_local : Z -> string)
    (fuel : nat) (s : state) (r : ref) :
  connected_now s = true ->
  ws (self s) = Some r ->
  call_ok e = false ->
  save_replay e strftime_local fuel s =
  (Return (Some false),
   mk_state (self s) (heap s) (trace s ++ [EvCall r SaveReplayBuffer])
     (clock s + Z.of_N (scan_duration e) + Z.of_N (call_duration e))).
Proof.
  intros Hc Hr Hno. rewrite (save_replay_run e strftime_local fuel s r Hc Hr).
  cbv zeta. now rewrite Hno.
Qed.

Lemma replay_request_heap (e : env) (q : request) (s : state) :
  heap (snd (require_connection
               (try_except (r <- self_ws ;; obsws_call e r q ;;; ret true)
                  (fun _ => ret false)) s)) = heap s /\
  self (snd (require_connection
               (try_except (r <- self_ws ;; obsws_call e r q ;;; ret true)
                  (fun _ => ret false)) s)) = self s.
Proof.
  rewrite require_connection_run. destruct (connected_now s); [|now split].
  destruct s as [c h t k]. mrun. destruct (ws c); mrun; [|now split].
  destruct (call_ok e); mrun; now split.
Qed.

Lemma save_replay_heap (e : env) (strftime_local : Z -> string) (fuel : nat)
    (s : state) :
  heap (snd (save_replay e strftime_local fuel s)) = heap s /\
  self (snd (save_replay e strftime_local fuel s)) = self s.
Proof.
  destruct (connected_now s) eqn:Hc.
  - destruct (connected_now_ws s Hc) as [r Hr].
    rewrite (save_replay_run e strftime_local fuel s r Hc Hr). cbv zeta.
    destruct (call_ok e); [|now split].
    match goal with
    | |- context [poll e strftime_local fuel ?b ?d ?s0] =>
        destruct (poll_frame e strftime_local b d fuel s0)
          as (v & s' & -> & Hs & Hh & _)
    end.
    cbn [snd]. now split.
  - unfold save_replay. rewrite require_connection_run, Hc. now split.
Qed.

Lemma cleanup_heap (e : env) (s : state) :
  (live_sessions (heap (snd (cleanup e s))) <= live_sessions (heap s))%nat /\
  List.length (heap (snd (cleanup e s))) = List.length (heap s) /\
  self (snd (cleanup e s)) = self s.
Proof.
  destruct s as [c h t k]. unfold cleanup. mrun.
  destruct (ws c) as [r|]; mrun.
  2:{ destruct (process c); mrun; repeat split; lia. }
  destruct (nth_error h r) as [o|] eqn:Ho; mrun; [|repeat split; lia].
  destruct (sock o) as [[|]|]; mrun.
  - destruct (close_ok e); mrun.
    + rewrite Ho. mrun. destruct (process c); mrun;
        (split; [now apply live_sessions_set_dead|]);
        (split; [apply set_nth_length|reflexivity]).
    + repeat split; lia.
  - destruct (process c); mrun; repeat split; lia.
  - repeat split; lia.
Qed.

Lemma launch_obs_heap (e : env) (s : state) :
  heap (snd (launch_obs e s)) = heap s /\ ws (self (snd (launch_obs e s))) = ws (self s).
Proof.
  destruct s as [c h t k]. unfold launch_obs, bind. rewrite is_process_running_run.
  cbn [self]. destruct (wmi_exec_query e _) as [n|]; cbn [truthy].
  - destruct (Nat.ltb 0 n); mrun; [now split|].
    destruct (popen e); mrun; now split.
  - mrun. destruct (popen e); mrun; now split.
Qed.

Lemma get_obs_version_run (e : env) (s : state) :
  heap (snd (get_obs_version e s)) =
    heap s ++ [session_of (self s) (Some (connect_ok e && negb (close_ok e)))] /\
  self (snd (get_obs_version e s)) = self s.
Proof.
  destruct s as [c h t k]. unfold get_obs_version. mrun.
  destruct (connect_ok e), (call_ok e), (close_ok e); mrun;
    repeat (rewrite nth_error_last; mrun; rewrite set_nth_last; mrun);
    now split.
Qed.


(** ** The claims on [save_replay] *)

(** C4, as the code has it: on a connected session whose save request is
    accepted, when the snapshot taken before the request is [None] and a
    poll taken by the deadline finds a file, [save_replay] returns [True];
    when the snapshot is a file and every poll taken by the deadline finds
    no file of another path, it returns [False] with the clock past the
    deadline, and, the request having returned by the deadline, after at
    least one [time.sleep(1)]; the only traffic on the session is the save
    request itself, so nothing cancels it.  The deadline is computed before
    the request is sent: a request that returns after it is answered
    [False] at once, without a poll and without a sleep.  [poll_bound]
    turns of the loop are enough. *)
Theorem save_replay_confirmation (e : env) (strftime_local : Z -> string)
    (s : state) (fuel : nat) :
  connected_now s = true ->
  call_ok e = true ->
  (poll_bound (timeout (self s)) <= fuel)%nat ->
  let before := Fs.get_latest_video strftime_local (dir_at e (clock s)) in
  let deadline := clock s + Z.of_N (scan_duration e) + timeout (self s) in
  let first_poll := clock s + Z.of_N (scan_duration e) + Z.of_N (call_duration e) in
  let poll_at := fun i : nat => first_poll + Z.of_nat i * poll_step e in
  let latest_at := fun i : nat =>
    Fs.get_latest_video strftime_local (dir_at e (poll_at i)) in
  let result := save_replay e strftime_local fuel s in
  (before = None ->
   (exists i, poll_at i <= deadline /\ latest_at i <> None) ->
   fst result = Return (Some true)) /\
  (forall X, before = Some X ->
   (forall i a, poll_at i <= deadline -> latest_at i = Some a ->
                Fs.info_path a = Fs.info_path X) ->
   fst result = Return (Some false) /\
   deadline < clock (snd result) /\
   (Z.of_N (call_duration e) <= timeout (self s) ->
    first_poll + 1 <= clock (snd result)) /\
   exists r, ws (self s) = Some r /\
             trace (snd result) = trace s ++ [EvCall r SaveReplayBuffer]) /\
  (timeout (self s) < Z.of_N (call_duration e) ->
   fst result = Return (Some false) /\ clock (snd result) = first_poll).
Proof.
  intros Hc Hok Hfuel before deadline first_poll poll_at latest_at result.
  destruct (connected_now_ws s Hc) as [r Hr].
  assert (Hrun := save_replay_run e strftime_local fuel s r Hc Hr).
  cbv zeta in Hrun. rewrite Hok in Hrun.
  fold before deadline first_poll in Hrun.
  set (sent := mk_state (self s) (heap s) (trace s ++ [EvCall r SaveReplayBuffer])
                 first_poll) in *.
  assert (Hf : (Z.to_nat (deadline - clock sent + 1) <= fuel)%nat).
  { unfold poll_bound in Hfuel. subst sent deadline first_poll. cbn [clock]. lia. }
  split; [|split].
  - intros Hb [i [Hi Hl]].
    destruct (poll_success e strftime_local before deadline fuel sent i) as [s' Hs'].
    + exact Hi.
    + change (new_file_seen before (latest_at i) = true). rewrite Hb.
      destruct (latest_at i); [reflexivity|contradiction].
    + exact Hf.
    + subst result. rewrite Hrun, Hs'. reflexivity.
  - intros X Hb Hsame.
    destruct (poll_timeout e strftime_local before deadline fuel sent)
      as (s' & Hs' & Hd & Hm & Hstep).
    + intros i Hi. change (new_file_seen before (latest_at i) = false).
      change (poll_at i <= deadline) in Hi. rewrite Hb.
      destruct (latest_at i) as [a|] eqn:Ha; [|reflexivity].
      cbn. rewrite (Hsame i a Hi Ha), String.eqb_refl. reflexivity.
    + exact Hf.
    + destruct (poll_frame e strftime_local before deadline fuel sent)
        as (v & s'' & Hs'' & _ & _ & Ht & _).
      rewrite Hs' in Hs''. injection Hs'' as <- <-.
      subst result. rewrite Hrun, Hs'. cbn [fst snd].
      split; [reflexivity|]. split; [exact Hd|]. split.
      * intros Hcd. assert (clock sent <= deadline)
          by (subst sent deadline first_poll; cbn [clock]; lia).
        specialize (Hstep H). subst sent. cbn [clock] in Hstep.
        unfold poll_step in Hstep. lia.
      * exists r. split; [exact Hr|exact Ht].
  - intros Hslow. subst result. rewrite Hrun.
    rewrite (poll_late e strftime_local before deadline fuel sent).
    + split; reflexivity.
    + subst sent deadline first_poll. cbn [clock]. lia.
Qed.

(** C3, amended: [save_replay] compares the snapshots by path alone.  On a
    connected session whose request is accepted it returns [True] exactly
    when a poll taken by the deadline finds a newest file and either there
    was no file before or the path of the file before is another one; the
    modification time plays no part. *)
Theorem save_replay_success_by_path (e : env) (strftime_local : Z -> string)
    (s : state) (fuel : nat) :
  connected_now s = true ->
  call_ok e = true ->
  (poll_bound (timeout (self s)) <= fuel)%nat ->
  let before := Fs.get_latest_video strftime_local (dir_at e (clock s)) in
  let deadline := clock s + Z.of_N (scan_duration e) + timeout (self s) in
  let first_poll := clock s + Z.of_N (scan_duration e) + Z.of_N (call_duration e) in
  let poll_at := fun i : nat => first_poll + Z.of_nat i * poll_step e in
  let latest_at := fun i : nat =>
    Fs.get_latest_video strftime_local (dir_at e (poll_at i)) in
  fst (save_replay e strftime_local fuel s) = Return (Some true) <->
  exists i a,
    poll_at i <= deadline /\ latest_at i = Some a /\
    (before = None \/
     exists X, before = Some X /\ Fs.info_path X <> Fs.info_path a).
Proof.
  intros Hc Hok Hfuel before deadline first_poll poll_at latest_at.
  destruct (connected_now_ws s Hc) as [r Hr].
  assert (Hrun := save_replay_run e strftime_local fuel s r Hc Hr).
  cbv zeta in Hrun. rewrite Hok in Hrun.
  fold before deadline first_poll in Hrun.
  set (sent := mk_state (self s) (heap s) (trace s ++ [EvCall r SaveReplayBuffer])
                 first_poll) in *.
  assert (Hseen : forall i, seen_at e strftime_local before (poll_at i) = true <->
            exists a, latest_at i = Some a /\
              (before = None \/
               exists X, before = Some X /\ Fs.info_path X <> Fs.info_path a)).
  { intros i. change (seen_at e strftime_local before (poll_at i))
      with (new_file_seen before (latest_at i)).
    destruct before as [X|], (latest_at i) as [a|]; cbn; split.
    - intros H. exists a. split; [reflexivity|]. right. exists X.
      split; [reflexivity|]. apply negb_true_iff, String.eqb_neq in H. exact H.
    - intros [a' [Ha [Hn|[X' [HX Hne]]]]]; [discriminate|].
      injection Ha as <-. injection HX as <-.
      now apply negb_true_iff, String.eqb_neq.
    - discriminate.
    - intros [a' [Ha _]]. discriminate.
    - intros _. exists a. split; [reflexivity|now left].
    - reflexivity.
    - discriminate.
    - intros [a' [Ha _]]. discriminate. }
  rewrite Hrun. split.
  - intros H.
    destruct (poll e strftime_local fuel before deadline sent) as [v s'] eqn:Hp.
    cbn [fst] in H. subst v.
    apply poll_true_inv in Hp. destruct Hp as [i [Hi Hs]].
    change (clock sent + Z.of_nat i * poll_step e) with (poll_at i) in *.
    apply Hseen in Hs. destruct Hs as [a [Ha Hcase]].
    exists i, a. split; [exact Hi|]. split; [exact Ha|exact Hcase].
  - intros (i & a & Hi & Ha & Hcase).
    destruct (poll_success e strftime_local before deadline fuel sent i) as [s' Hs'].
    + exact Hi.
    + change (clock sent + Z.of_nat i * poll_step e) with (poll_at i).
      apply Hseen. exists a. split; [exact Ha|exact Hcase].
    + unfold poll_bound in Hfuel. subst sent deadline first_poll. cbn [clock]. lia.
    + rewrite Hs'. reflexivity.
Qed.

(** ** The stored handle always refers to an allocated object *)

Lemma ws_valid_init (password0 : string) (port0 : Z) (host0 : string) (kw : kwargs)
    (t : list event) (k : Z) :
  ws_valid (mk_state (init password0 port0 host0 kw) [] t k).
Proof. intros r H. discriminate. Qed.

Lemma ws_valid_frame (s s' : state) :
  self s' = self s ->
  (List.length (heap s) <= List.length (heap s'))%nat ->
  ws_valid s -> ws_valid s'.
Proof.
  intros Hs Hh Hv r Hr. rewrite Hs in Hr. specialize (Hv r Hr). lia.
Qed.

Lemma ws_valid_preserved (e : env) (strftime_local : Z -> string) (fuel : nat)
    (s : state) :
  ws_valid s ->
  ws_valid (snd (connect e s)) /\
  ws_valid (snd (disconnect e s)) /\
  ws_valid (snd (websocket_connection_health_check e s)) /\
  ws_valid (snd (start_replay_buffer e s)) /\
  ws_valid (snd (stop_replay_buffer e s)) /\
  ws_valid (snd (save_replay e strftime_local fuel s)) /\
  ws_valid (snd (cleanup e s)) /\
  ws_valid (snd (launch_obs e s)) /\
  ws_valid (snd (get_obs_version e s)).
Proof.
  intros Hv. repeat split.
  - rewrite connect_run. destruct (running_now e s); [|exact Hv].
    intros r Hr. cbn [snd self heap] in *. injection Hr as <-.
    rewrite length_app. cbn. lia.
  - rewrite disconnect_run. destruct (ws (self s)) as [r|]; [|exact Hv].
    intros r' Hr'. discriminate.
  - apply (ws_valid_frame s); [| |exact Hv]; rewrite health_check_run; cbn [snd self heap];
      [reflexivity|rewrite length_app; lia].
  - destruct (replay_request_heap e StartReplayBuffer s) as [Hh Hs].
    apply (ws_valid_frame s); [exact Hs| |exact Hv].
    unfold start_replay_buffer. rewrite Hh. lia.
  - destruct (replay_request_heap e StopReplayBuffer s) as [Hh Hs].
    apply (ws_valid_frame s); [exact Hs| |exact Hv].
    unfold stop_replay_buffer. rewrite Hh. lia.
  - destruct (save_replay_heap e strftime_local fuel s) as [Hh Hs].
    apply (ws_valid_frame s); [exact Hs| |exact Hv]. rewrite Hh. lia.
  - destruct (cleanup_heap e s) as (_ & Hl & Hs).
    apply (ws_valid_frame s); [exact Hs| |exact Hv]. rewrite Hl. lia.
  - destruct (launch_obs_heap e s) as [Hh Hw].
    intros r Hr. rewrite Hw in Hr. rewrite Hh. now apply Hv.
  - destruct (get_obs_version_run e s) as [Hh Hs].
    apply (ws_valid_frame s); [exact Hs| |exact Hv]. rewrite Hh, length_app. lia.
Qed.

(** ** The claims on the session *)

(** C5: [disconnect] always leaves [self.ws = None], whether the close
    returned or raised, and [is_connected] queried next answers [False];
    with a handle present the call returns [True] after a close that
    succeeded and raises [OBSConnectionError] after one that failed. *)
Theorem disconnect_clears_handle (e : env) (s : state) :
  ws (self (snd (disconnect e s))) = None /\
  is_connected (snd (disconnect e s)) = (Return false, snd (disconnect e s)) /\
  (forall r, ws (self s) = Some r ->
     fst (disconnect e s) =
       (if close_ok e then Return true else Raise OBSConnectionError) /\
     trace (snd (disconnect e s)) = trace s ++ [EvDisconnect r]).
Proof.
  rewrite is_connected_run, connected_now_handle, disconnect_run.
  destruct s as [c h t k]. cbn [self].
  destruct (ws c) as [r|] eqn:Hw; cbn [fst snd self heap trace].
  - split; [reflexivity|]. split; [reflexivity|].
    intros r' Hr'. injection Hr' as <-. now split.
  - rewrite Hw. split; [reflexivity|]. split; [reflexivity|]. discriminate.
Qed.

(** C8: [websocket_connection_health_check] works on a session object of
    its own: the controller object is left as it was, field by field, every
    session object that existed before is unchanged, and so is what
    [is_connected] answers. *)
Theorem health_check_frame (e : env) (s : state) :
  ws_valid s ->
  self (snd (websocket_connection_health_check e s)) = self s /\
  (forall r o, nth_error (heap s) r = Some o ->
     nth_error (heap (snd (websocket_connection_health_check e s))) r = Some o) /\
  is_connected (snd (websocket_connection_health_check e s)) =
    (fst (is_connected s), snd (websocket_connection_health_check e s)) /\
  clock (snd (websocket_connection_health_check e s)) = clock s /\
  fst (websocket_connection_health_check e s) = Return (connect_ok e && close_ok e).
Proof.
  intros Hv. rewrite health_check_run. cbn [fst snd self heap clock].
  split; [reflexivity|]. split; [intros r o; apply nth_error_old|].
  split; [|now split].
  rewrite !is_connected_run, !connected_now_handle. cbn [fst self heap].
  destruct (ws (self s)) as [r|] eqn:Hw; [|reflexivity].
  rewrite nth_error_app1 by (now apply Hv). reflexivity.
Qed.

(** C10: when the liveness query raises, [is_process_running] returns
    [None]; the guard then raises [OBSProcessError] and [launch_obs] goes on
    to spawn, exactly as they do when the query reports no process. *)
Theorem failed_liveness_query_is_not_running (e : env) (s : state) (ex : exn) :
  wmi_exec_query e (lower (process_name (self s))) = Raise ex ->
  is_process_running e s = (Return None, s) /\
  (forall (A : Type) (f : M A),
     require_process_running e f s = (Raise OBSProcessError, s)) /\
  connect e s = (Raise OBSProcessError, s) /\
  (forall e0,
     wmi_exec_query e0 (lower (process_name (self s))) = Return 0%nat ->
     is_process_running e0 s = (Return (Some false), s) /\
     (forall (A : Type) (f : M A),
        require_process_running e f s = require_process_running e0 f s) /\
     (popen e0 = popen e -> launch_obs e s = launch_obs e0 s)).
Proof.
  intros Hq.
  assert (Hguard : forall (A : Type) (f : M A),
            require_process_running e f s = (Raise OBSProcessError, s)).
  { intros A f. unfold require_process_running, bind.
    rewrite is_process_running_run, Hq. reflexivity. }
  split; [rewrite is_process_running_run, Hq; reflexivity|].
  split; [exact Hguard|]. split; [apply Hguard|].
  intros e0 H0.
  split; [rewrite is_process_running_run, H0; reflexivity|]. split.
  - intros A f. rewrite Hguard. unfold require_process_running, bind.
    rewrite is_process_running_run, H0. reflexivity.
  - intros Hp. unfold launch_obs, bind.
    rewrite !is_process_running_run, Hq, H0. cbn [truthy Nat.ltb Nat.leb].
    mrun. rewrite Hp. reflexivity.
Qed.

(** C2, amended: each guarded method carries one check.  [connect] checks
    the process only: it raises [OBSProcessError] when the process is not
    seen running and otherwise tries to connect, whatever the session is.
    [save_replay] and [start_replay_buffer] check the connection only: they
    raise [OBSWebSocketError] when [is_connected] is false and otherwise
    send their request, whatever the process is.  A failed check leaves the
    state, and so the traffic, as it was. *)
Theorem guards_as_written :
  (forall e s, running_now e s = false ->
     connect e s = (Raise OBSProcessError, s)) /\
  (forall e s, running_now e s = true ->
     fst (connect e s) = Return (connect_ok e) /\
     trace (snd (connect e s)) = trace s ++ [EvConnect (List.length (heap s))]) /\
  (forall e f fuel s, connected_now s = false ->
     save_replay e f fuel s = (Raise OBSWebSocketError, s)) /\
  (forall e s, connected_now s = false ->
     start_replay_buffer e s = (Raise OBSWebSocketError, s)) /\
  (forall e f fuel s, connected_now s = true ->
     exists r v,
       ws (self s) = Some r /\
       fst (save_replay e f fuel s) = Return v /\
       trace (snd (save_replay e f fuel s)) = trace s ++ [EvCall r SaveReplayBuffer]) /\
  (forall e s, connected_now s = true ->
     exists r,
       ws (self s) = Some r /\
       fst (start_replay_buffer e s) = Return (call_ok e) /\
       trace (snd (start_replay_buffer e s)) = trace s ++ [EvCall r StartReplayBuffer]).
Proof.
  repeat split.
  - intros e s H. rewrite connect_run, H. reflexivity.
  - rewrite connect_run, H. reflexivity.
  - rewrite connect_run, H. reflexivity.
  - intros e f fuel s H. unfold save_replay. rewrite require_connection_run, H. reflexivity.
  - intros e s H. unfold start_replay_buffer. rewrite require_connection_run, H. reflexivity.
  - intros e f fuel s H. destruct (connected_now_ws s H) as [r Hr].
    rewrite (save_replay_run e f fuel s r H Hr). cbv zeta.
    destruct (call_ok e).
    + match goal with
      | |- context [poll e f fuel ?b ?d ?s0] =>
          destruct (poll_frame e f b d fuel s0) as (v & s' & -> & _ & _ & Ht & _)
      end.
      exists r, v. cbn [fst snd]. repeat split; assumption.
    + exists r, (Some false). cbn [fst snd trace]. repeat split; assumption.
  - intros e s H. destruct (connected_now_ws s H) as [r Hr]. exists r.
    unfold start_replay_buffer. rewrite require_connection_run, H.
    destruct s as [c h t k]. cbn [self] in Hr. mrun. rewrite Hr. mrun.
    destruct (call_ok e); mrun; repeat split.
Qed.


(** ** Where the code departs from the specification's wording *)

(** C2, as the specification words it, fails: with the process down and no
    session, [start_replay_buffer] and [save_replay] raise
    [OBSWebSocketError], not [OBSProcessError]; with the process up and no
    session, [connect] connects instead of raising; and with the process
    down behind a socket still flagged connected, [start_replay_buffer]
    sends its request. *)
Lemma guards_not_in_claimed_order :
  (running_now obs_down fresh = false /\
   start_replay_buffer obs_down fresh = (Raise OBSWebSocketError, fresh) /\
   save_replay obs_down render 1 fresh = (Raise OBSWebSocketError, fresh)) /\
  (running_now obs_up fresh = true /\ connected_now fresh = false /\
   fst (connect obs_up fresh) = Return true) /\
  (running_now obs_down (linked 300) = false /\
   fst (start_replay_buffer obs_down (linked 300)) = Return true /\
   trace (snd (start_replay_buffer obs_down (linked 300))) =
     [EvConnect 0%nat; EvCall 0%nat StartReplayBuffer]) /\
  ~ guarded_in_order obs_down (start_replay_buffer obs_down) fresh /\
  ~ guarded_in_order obs_down (save_replay obs_down render 1) fresh /\
  ~ guarded_in_order obs_up (connect obs_up) fresh.
Proof.
  repeat split; try (vm_compute; reflexivity).
  - intros [H _]. specialize (H eq_refl). vm_compute in H. discriminate.
  - intros [H _]. specialize (H eq_refl). vm_compute in H. discriminate.
  - intros [_ H]. specialize (H eq_refl eq_refl). vm_compute in H. discriminate.
Qed.

(** C4, as the specification words it, fails twice.  With scans of two
    seconds and a timeout of five, [clip6.mp4] appears at second 6, before
    the deadline at second 7, while the poll begun at second 5 is under
    way; the next poll would come at second 8, so [save_replay] returns
    [False] although nothing was there before.  And with a request that
    takes five seconds and a timeout of three, the deadline has passed
    when the request returns: [False] is returned at that very reading of
    the clock, no poll taken and no second slept. *)
Lemma file_before_deadline_is_missed :
  (clock (linked 5) = 0 /\ timeout (self (linked 5)) = 5 /\
   connected_now (linked 5) = true /\ call_ok Inputs.slow_scan = true /\
   Z.of_N (scan_duration Inputs.slow_scan) = 2 /\
   Z.of_N (call_duration Inputs.slow_scan) = 0 /\
   Fs.get_latest_video render (dir_at Inputs.slow_scan 0) = None /\
   Fs.get_latest_video render (dir_at Inputs.slow_scan 6) =
     Some (Fs.mk_info "clip6.mp4" "6" "6" "6") /\
   fst (save_replay Inputs.slow_scan render (poll_bound 5) (linked 5)) =
     Return (Some false) /\
   clock (snd (save_replay Inputs.slow_scan render (poll_bound 5) (linked 5))) = 8) /\
  (clock (linked 3) = 0 /\ timeout (self (linked 3)) = 3 /\
   connected_now (linked 3) = true /\ call_ok Inputs.slow_request = true /\
   Fs.get_latest_video render (dir_at Inputs.slow_request 0) =
     Some (Fs.mk_info "replay.mp4" "0" "0" "0") /\
   fst (save_replay Inputs.slow_request render (poll_bound 3) (linked 3)) =
     Return (Some false) /\
   clock (snd (save_replay Inputs.slow_request render (poll_bound 3) (linked 3))) = 6 /\
   0 + Z.of_N (scan_duration Inputs.slow_request) +
     Z.of_N (call_duration Inputs.slow_request) = 6).
Proof. repeat split; vm_compute; reflexivity. Qed.

(** C3, as the specification words it, fails: the recorder rewrites
    [replay.mp4], so every poll finds the same path with a newer
    modification time than the snapshot taken before the request, and
    [save_replay] still runs into its timeout and returns [False]. *)
Lemma same_path_newer_mtime_times_out :
  Fs.get_latest_video render (dir_at rewriting 0) =
    Some (Fs.mk_info "replay.mp4" "0" "0" "0") /\
  Fs.get_latest_video render (dir_at rewriting 1) =
    Some (Fs.mk_info "replay.mp4" "1" "0" "1") /\
  clock (linked 3) = 0 /\ timeout (self (linked 3)) = 3 /\
  connected_now (linked 3) = true /\
  fst (save_replay rewriting render (poll_bound 3) (linked 3)) = Return (Some false) /\
  clock (snd (save_replay rewriting render (poll_bound 3) (linked 3))) = 4.
Proof. repeat split; vm_compute; reflexivity. Qed.


(** ** The theorems at concrete inputs *)

Lemma linked_valid (t : Z) : ws_valid (linked t).
Proof. intros r H. injection H as <-. apply Nat.lt_succ_diag_r. Qed.

Lemma health_check_frame_witness :
  ws_valid (linked 300) /\
  (self (snd (websocket_connection_health_check request_refused (linked 300))) =
     self (linked 300) /\
   (forall r o, nth_error (heap (linked 300)) r = Some o ->
      nth_error
        (heap (snd (websocket_connection_health_check request_refused (linked 300)))) r =
      Some o) /\
   is_connected (snd (websocket_connection_health_check request_refused (linked 300))) =
     (fst (is_connected (linked 300)),
      snd (websocket_connection_health_check request_refused (linked 300))) /\
   clock (snd (websocket_connection_health_check request_refused (linked 300))) =
     clock (linked 300) /\
   fst (websocket_connection_health_check request_refused (linked 300)) =
     Return (connect_ok request_refused && close_ok request_refused)).
Proof.
  split; [apply linked_valid|].
  exact (health_check_frame request_refused (linked 300) (linked_valid 300)).
Defined.

Lemma failed_liveness_query_is_not_running_witness :
  wmi_exec_query wmi_broken (lower (process_name (self fresh))) = Raise LibraryError /\
  is_process_running wmi_broken fresh = (Return None, fresh) /\
  connect wmi_broken fresh = (Raise OBSProcessError, fresh) /\
  connect obs_down fresh = (Raise OBSProcessError, fresh) /\
  launch_obs wmi_broken fresh = launch_obs obs_down fresh.
Proof.
  destruct (failed_liveness_query_is_not_running wmi_broken fresh LibraryError eq_refl)
    as (Hnone & Hguard & Hconnect & Hsame).
  destruct (Hsame obs_down eq_refl) as (_ & _ & Hlaunch).
  split; [reflexivity|]. split; [exact Hnone|]. split; [exact Hconnect|].
  split; [reflexivity|exact (Hlaunch eq_refl)].
Defined.

(** The scenario of the specification: the directory is empty, the
    replay is saved, [clip1.mp4] appears two seconds later, the timeout is
    ten seconds.  And the timeout: one file, rewritten in place. *)
Lemma save_replay_confirmation_witness :
  (connected_now (linked 10) = true /\
   call_ok clip_arrives = true /\
   (poll_bound (timeout (self (linked 10))) <= poll_bound 10)%nat) /\
  fst (save_replay clip_arrives render (poll_bound 10) (linked 10)) = Return (Some true) /\
  fst (save_replay rewriting render (poll_bound 3) (linked 3)) = Return (Some false) /\
  3 < clock (snd (save_replay rewriting render (poll_bound 3) (linked 3))) /\
  1 <= clock (snd (save_replay rewriting render (poll_bound 3) (linked 3))) /\
  trace (snd (save_replay rewriting render (poll_bound 3) (linked 3))) =
    trace (linked 3) ++ [EvCall 0%nat SaveReplayBuffer].
Proof.
  assert (H1 : connected_now (linked 10) = true) by reflexivity.
  assert (H2 : call_ok clip_arrives = true) by reflexivity.
  assert (H4 : (poll_bound (timeout (self (linked 10))) <= poll_bound 10)%nat)
    by (vm_compute; lia).
  split; [now repeat split|].
  destruct (save_replay_confirmation clip_arrives render (linked 10) (poll_bound 10)
              H1 H2 H4) as [Hfound _].
  split.
  { apply Hfound; [reflexivity|]. exists 2%nat. split; vm_compute; discriminate. }
  assert (K3 : Z.of_N (call_duration rewriting) <= timeout (self (linked 3)))
    by (vm_compute; discriminate).
  assert (K4 : (poll_bound (timeout (self (linked 3))) <= poll_bound 3)%nat)
    by (vm_compute; lia).
  destruct (save_replay_confirmation rewriting render (linked 3) (poll_bound 3)
              eq_refl eq_refl K4) as (_ & Hsame & _).
  destruct (Hsame (Fs.mk_info "replay.mp4" "0" "0" "0") eq_refl)
    as (Hres & Hclock & Hslept & r & Hr & Htrace).
  { intros i a _ Ha. vm_compute in Ha. injection Ha as <-. reflexivity. }
  split; [exact Hres|]. split; [exact Hclock|]. split; [exact (Hslept K3)|].
  injection Hr as <-. exact Htrace.
Defined.

Lemma save_replay_success_by_path_witness :
  (connected_now (linked 10) = true /\
   call_ok clip_arrives = true /\
   (poll_bound (timeout (self (linked 10))) <= poll_bound 10)%nat) /\
  (fst (save_replay clip_arrives render (poll_bound 10) (linked 10)) = Return (Some true) <->
   exists i a,
     clock (linked 10) + Z.of_N (scan_duration clip_arrives) +
       Z.of_N (call_duration clip_arrives) + Z.of_nat i * poll_step clip_arrives <=
     clock (linked 10) + Z.of_N (scan_duration clip_arrives) + timeout (self (linked 10)) /\
     Fs.get_latest_video render
       (dir_at clip_arrives
          (clock (linked 10) + Z.of_N (scan_duration clip_arrives) +
           Z.of_N (call_duration clip_arrives) + Z.of_nat i * poll_step clip_arrives)) =
     Some a /\
     (Fs.get_latest_video render (dir_at clip_arrives (clock (linked 10))) = None \/
      exists X,
        Fs.get_latest_video render (dir_at clip_arrives (clock (linked 10))) = Some X /\
        Fs.info_path X <> Fs.info_path a)).
Proof.
  assert (H1 : connected_now (linked 10) = true) by reflexivity.
  assert (H2 : call_ok clip_arrives = true) by reflexivity.
  assert (H3 : (poll_bound (timeout (self (linked 10))) <= poll_bound 10)%nat)
    by (vm_compute; lia).
  split; [now repeat split|].
  exact (save_replay_success_by_path clip_arrives render (linked 10) (poll_bound 10)
           H1 H2 H3).
Defined.

End ObsTheory.

(** * More on the replay directory *)

Module FsMore.
Import Fs FsTheory Inputs.

(** ** Sums of sizes *)

Lemma sum_sizes_stats (d : directory) (l : list string) (t : Z) :
  sum_sizes d l = Return t -> forall p, In p l -> exists s, stat d p = Return s.
Proof.
  revert t. induction l as [|q l IH]; simpl; intros t H p Hp; [contradiction|].
  unfold obind in H. destruct (stat d q) as [s|] eqn:Es; [|discriminate].
  destruct (sum_sizes d l) as [t'|]; [|discriminate].
  destruct Hp as [<-|Hp]; [now exists s|]. exact (IH t' eq_refl p Hp).
Qed.

Lemma sum_sizes_perm (d : directory) (l l' : list string) :
  Permutation l l' -> forall t, sum_sizes d l = Return t -> sum_sizes d l' = Return t.
Proof.
  induction 1 as [|x l l' Hp IH|x y l|l l' l'' H1 IH1 H2 IH2]; intros t H.
  - exact H.
  - simpl in *. unfold obind in *. destruct (stat d x); [|discriminate].
    destruct (sum_sizes d l) as [t'|]; [|discriminate].
    now rewrite (IH t' eq_refl).
  - simpl in *. unfold obind in *.
    destruct (stat d x), (stat d y); try discriminate.
    destruct (sum_sizes d l); [|discriminate].
    injection H as <-. f_equal. lia.
  - apply IH2, IH1, H.
Qed.

Lemma sum_sizes_unreadable (d : directory) (l : list string) (p : string) (e : exn) :
  In p l -> stat d p = Raise e -> exists e', sum_sizes d l = Raise e'.
Proof.
  induction l as [|q l IH]; simpl; intros Hp Hs; [contradiction|].
  unfold obind. destruct (stat d q) as [s|e0] eqn:Es; [|now exists e0].
  destruct Hp as [->|Hp]; [congruence|].
  destruct (IH Hp Hs) as [e' ->]. now exists e'.
Qed.

Lemma decorate_unreadable (key : string -> outcome Z) (l : list string)
    (p : string) (e : exn) :
  In p l -> key p = Raise e -> exists e', decorate key l = Raise e'.
Proof.
  induction l as [|q l IH]; simpl; intros Hp Hk; [contradiction|].
  unfold obind. destruct (key q) as [k|e0] eqn:Ek; [|now exists e0].
  destruct Hp as [->|Hp]; [congruence|].
  destruct (IH Hp Hk) as [e' ->]. now exists e'.
Qed.

Lemma sorted_videos_total (d : directory) :
  (forall p, In p (glob d) -> exists s, stat d p = Return s) ->
  exists vs, sorted_videos d = Return vs.
Proof.
  intros H. unfold sorted_videos, py_sorted.
  destruct (decorate_total (fun f => s <-! stat d f ;; Return (st_ctime s)) (glob d))
    as [ks ->].
  - intros p Hp. destruct (H p Hp) as [s ->]. now eexists.
  - now eexists.
Qed.

(** ** Within the cap nothing is deleted *)

(** When the matching files can be read and their total is within the cap,
    [check_and_manage_folder_size] and [cleanup_videos] both return the
    directory as it was. *)
Theorem within_cap_nothing_deleted (cap : Z) (d : directory) (t : Z) :
  sum_sizes d (glob d) = Return t ->
  t <= cap ->
  check_and_manage_folder_size cap d = Return d /\
  cleanup_videos cap d = Return d.
Proof.
  intros Hsum Hle. split.
  - unfold check_and_manage_folder_size. rewrite Hsum. simpl.
    destruct (Z.gtb_spec t cap); [lia|reflexivity].
  - destruct (sorted_videos_total d (sum_sizes_stats d _ t Hsum)) as [vs Hvs].
    destruct (cleanup_videos_state_runs cap d vs Hvs) as [size [Hsize Hrun]].
    destruct (sorted_videos_spec d vs Hvs) as (Hperm & _).
    rewrite (sum_sizes_perm d _ _ (Permutation_sym Hperm) t Hsum) in Hsize.
    injection Hsize as <-.
    unfold cleanup_videos. rewrite Hrun. simpl.
    now rewrite cleanup_loop_within.
Qed.

Lemma within_cap_nothing_deleted_witness :
  sum_sizes scenario_dir (glob scenario_dir) = Return (150 * MB) /\
  150 * MB <= 200 * MB /\
  check_and_manage_folder_size (200 * MB) scenario_dir = Return scenario_dir /\
  cleanup_videos (200 * MB) scenario_dir = Return scenario_dir.
Proof.
  assert (H1 : sum_sizes scenario_dir (glob scenario_dir) = Return (150 * MB))
    by reflexivity.
  assert (H2 : 150 * MB <= 200 * MB) by (vm_compute; discriminate).
  split; [exact H1|]. split; [exact H2|].
  exact (within_cap_nothing_deleted (200 * MB) scenario_dir (150 * MB) H1 H2).
Defined.

(** ** A failing scan *)

(** The two retention methods have no handler around the scan: when a
    matching entry cannot be read they raise, and nothing is deleted, where
    [get_latest_video] answers [None]. *)
Theorem scan_failure_reaches_the_caller (strftime_local : Z -> string) (cap : Z)
    (d : directory) :
  unreadable d ->
  (exists e, check_and_manage_folder_size cap d = Raise e) /\
  (exists e, cleanup_videos cap d = Raise e) /\
  get_latest_video strftime_local d = None.
Proof.
  intros (p & e & Hp & Hs). split; [|split].
  - destruct (sum_sizes_unreadable d (glob d) p e Hp Hs) as [e' He'].
    exists e'. unfold check_and_manage_folder_size. now rewrite He'.
  - destruct (decorate_unreadable (fun f => s <-! stat d f ;; Return (st_ctime s))
                (glob d) p e Hp) as [e' He'].
    { unfold obind. now rewrite Hs. }
    exists e'. apply cleanup_videos_scan_fails.
    unfold sorted_videos, py_sorted. now rewrite He'.
  - unfold get_latest_video.
    pose proof (py_max_spec (fun q => s <-! stat d q ;; Return (st_mtime s)) (glob d)) as H.
    destruct (py_max _ (glob d)) as [[q|]|]; try reflexivity.
    destruct H as (v & l1 & l2 & _ & _ & _ & _ & Hkeys).
    destruct (Hkeys p Hp) as [w Hw]. unfold obind in Hw. rewrite Hs in Hw. discriminate.
Qed.

Lemma scan_failure_reaches_the_caller_witness :
  unreadable dangling_dir /\
  (exists e, check_and_manage_folder_size (10 * MB) dangling_dir = Raise e) /\
  (exists e, cleanup_videos (10 * MB) dangling_dir = Raise e) /\
  get_latest_video (fun _ => "") dangling_dir = None.
Proof.
  assert (H : unreadable dangling_dir).
  { exists "lost.mp4", FileNotFoundError. split; [right; now left|reflexivity]. }
  split; [exact H|].
  exact (scan_failure_reaches_the_caller (fun _ => "") (10 * MB) dangling_dir H).
Defined.

(** ** What retention can remove *)

Lemma kept_when_not_video (d : directory) (att : list string) (e : entry) :
  (forall p, In p att -> is_mp4 p = true) ->
  is_mp4 (path e) = false -> kept d att e = true.
Proof.
  intros Hatt He. unfold kept. destruct (mem (path e) att) eqn:Hm; [|reflexivity].
  apply mem_In, Hatt in Hm. congruence.
Qed.

Lemma cleanup_videos_disk (cap : Z) (d d' : directory) :
  cleanup_videos cap d = Return d' ->
  exists vs att,
    sorted_videos d = Return vs /\
    (forall p, In p att -> In p vs) /\
    d' = filter (kept d att) d.
Proof.
  unfold cleanup_videos, cleanup_videos_state, obind.
  destruct (sorted_videos d) as [vs|] eqn:Hvs; [|discriminate].
  destruct (sum_sizes d vs) as [size|]; [|discriminate].
  intros H. injection H as <-.
  destruct (cleanup_loop_disk cap vs size d) as [att [Hsplit Hd]].
  exists vs, att. split; [reflexivity|]. split; [|exact Hd].
  intros p Hp. rewrite Hsplit. apply in_or_app. now left.
Qed.

Lemma check_is_cleanup_or_nothing (cap : Z) (d d' : directory) :
  check_and_manage_folder_size cap d = Return d' ->
  d' = d \/ cleanup_videos cap d = Return d'.
Proof.
  unfold check_and_manage_folder_size, obind.
  destruct (sum_sizes d (glob d)) as [t|]; [|discriminate].
  destruct (t >? cap); [now right|]. intros H. injection H as <-. now left.
Qed.

(** Retention only ever removes files that match ['*.mp4'] and that
    [os.remove] accepts: the directory it leaves is the old one with some
    entries taken out, in the same order; every file of another kind and
    every file held open is still there. *)
Theorem retention_only_removes_unlocked_videos (cap : Z) (d d' : directory) :
  check_and_manage_folder_size cap d = Return d' \/ cleanup_videos cap d = Return d' ->
  (exists keep, d' = filter keep d) /\
  (forall e, In e d' -> In e d) /\
  (forall e, In e d -> is_mp4 (path e) = false -> In e d') /\
  (forall e, In e d -> is_locked d (path e) = true -> In e d') /\
  (forall e, In e d -> ~ In e d' ->
     is_mp4 (path e) = true /\ is_locked d (path e) = false).
Proof.
  intros H.
  assert (Hc : d' = d \/ cleanup_videos cap d = Return d').
  { destruct H as [H|H]; [now apply check_is_cleanup_or_nothing|now right]. }
  destruct Hc as [->|Hc].
  { split; [exists (fun _ => true); symmetry; now apply forallb_filter_id, forallb_forall|].
    repeat split; try tauto; contradiction. }
  destruct (cleanup_videos_disk cap d d' Hc) as (vs & att & Hvs & Hatt & ->).
  destruct (sorted_videos_spec d vs Hvs) as (Hperm & _).
  assert (Hmp4 : forall p, In p att -> is_mp4 p = true).
  { intros p Hp. apply Hatt, (Permutation_in _ Hperm), In_glob in Hp.
    destruct Hp as (e & _ & _ & Hm). exact Hm. }
  split; [now exists (kept d att)|].
  split; [intros e He; now apply filter_In in He|].
  split; [intros e He Hm; apply filter_In; split;
            [exact He|now apply kept_when_not_video]|].
  split.
  - intros e He Hl. apply filter_In. split; [exact He|].
    unfold kept. rewrite Hl. apply orb_true_r.
  - intros e He Hout.
    destruct (kept d att e) eqn:Hk.
    { exfalso. apply Hout, filter_In. now split. }
    unfold kept in Hk. apply orb_false_iff in Hk. destruct Hk as [Hm Hl].
    split; [|exact Hl]. apply negb_false_iff, mem_In in Hm. now apply Hmp4.
Qed.

Lemma retention_only_removes_unlocked_videos_witness :
  (check_and_manage_folder_size (120 * MB) locked_dir = Return locked_after \/
   cleanup_videos (120 * MB) locked_dir = Return locked_after) /\
  (exists keep, locked_after = filter keep locked_dir) /\
  (forall e, In e locked_after -> In e locked_dir) /\
  (forall e, In e locked_dir -> is_mp4 (path e) = false -> In e locked_after) /\
  (forall e, In e locked_dir -> is_locked locked_dir (path e) = true ->
     In e locked_after) /\
  (forall e, In e locked_dir -> ~ In e locked_after ->
     is_mp4 (path e) = true /\ is_locked locked_dir (path e) = false).
Proof.
  assert (H : check_and_manage_folder_size (120 * MB) locked_dir = Return locked_after \/
              cleanup_videos (120 * MB) locked_dir = Return locked_after)
    by (left; reflexivity).
  split; [exact H|].
  exact (retention_only_removes_unlocked_videos (120 * MB) locked_dir locked_after H).
Defined.

(** ** A second pass changes nothing *)

Lemma find_filter_by_path (K : entry -> bool) (b : bool) (p : string) (d : directory) :
  (forall e, path e = p -> K e = b) ->
  find (has_path p) (filter K d) = if b then find (has_path p) d else None.
Proof.
  intros HK. induction d as [|x d IH]; simpl; [now destruct b|].
  destruct (has_path p x) eqn:Hx.
  - assert (Hp : path x = p) by (now apply String.eqb_eq).
    rewrite (HK x Hp). destruct b; simpl; [now rewrite Hx|].
    rewrite IH. reflexivity.
  - destruct (K x); simpl; [rewrite Hx|]; exact IH.
Qed.

Lemma kept_by_path (d : directory) (att : list string) (p : string) (e : entry) :
  path e = p -> kept d att e = negb (mem p att) || is_locked d p.
Proof. intros <-. reflexivity. Qed.

Lemma cleanup_loop_all_locked (cap : Z) (vs : list string) (size : Z) (d : directory) :
  (forall p, In p vs -> is_locked d p = true) ->
  disk (cleanup_loop cap vs size d) = d.
Proof.
  induction vs as [|p vs IH]; simpl; intros H; [reflexivity|].
  destruct (size >? cap); [|reflexivity].
  assert (Hp : is_locked d p = true) by (apply H; now left).
  unfold os_remove. unfold is_locked in Hp.
  destruct (find (has_path p) d) as [e|]; [|discriminate].
  rewrite Hp. apply IH. intros q Hq. apply H. now right.
Qed.

Lemma cleanup_videos_inv (cap : Z) (d d' : directory) :
  cleanup_videos cap d = Return d' ->
  exists vs size,
    sorted_videos d = Return vs /\ sum_sizes d vs = Return size /\
    d' = disk (cleanup_loop cap vs size d).
Proof.
  unfold cleanup_videos, cleanup_videos_state, obind.
  destruct (sorted_videos d) as [vs|] eqn:Hvs; [|discriminate].
  destruct (sum_sizes d vs) as [size|] eqn:Hsize; [|discriminate].
  intros H. injection H as <-. now exists vs, size.
Qed.

(** Running [cleanup_videos] on the directory it has just left gives that
    directory back: the files still there are within the cap or cannot be
    deleted. *)
Theorem cleanup_videos_twice (cap : Z) (d d' : directory) :
  cleanup_videos cap d = Return d' ->
  cleanup_videos cap d' = Return d'.
Proof.
  intros H. destruct (cleanup_videos_inv cap d d' H) as (vs & size & Hvs & Hsize & Hd).
  destruct (Z.le_gt_cases size cap) as [Hle|Hgt].
  { rewrite cleanup_loop_within in Hd by exact Hle. cbn in Hd. now subst d'. }
  destruct (cleanup_loop_disk cap vs size d) as [att [Hsplit Hdisk]].
  rewrite cleanup_loop_over, app_nil_r in Hsplit by lia. subst att.
  rewrite Hdisk in Hd. clear Hdisk.
  destruct (sorted_videos_spec d vs Hvs) as (Hperm & _ & _ & Hstat).
  assert (Hsurv : forall p, In p (glob d') ->
            In p vs /\ is_locked d p = true /\
            find (has_path p) d' = find (has_path p) d).
  { intros p Hp. rewrite Hd in Hp. apply survivors_kept in Hp.
    destruct Hp as [Hg Hk].
    assert (Hin : In p vs) by (apply (Permutation_in _ (Permutation_sym Hperm)), Hg).
    assert (Hl : is_locked d p = true).
    { destruct Hk as [Hk|Hk]; [|exact Hk]. apply mem_In in Hin. congruence. }
    repeat split; try assumption.
    rewrite Hd, (find_filter_by_path (kept d vs) true p d); [reflexivity|].
    intros e He. rewrite (kept_by_path d vs p e He), Hl. apply orb_true_r. }
  assert (Hstat' : forall p, In p (glob d') -> exists s, stat d' p = Return s).
  { intros p Hp. destruct (Hsurv p Hp) as (Hin & _ & Hf).
    unfold stat. rewrite Hf. exact (Hstat p Hin). }
  destruct (sorted_videos_total d' Hstat') as [vs' Hvs'].
  destruct (cleanup_videos_state_runs cap d' vs' Hvs') as [size' [_ Hrun]].
  destruct (sorted_videos_spec d' vs' Hvs') as (Hperm' & _).
  unfold cleanup_videos. rewrite Hrun. simpl. f_equal.
  apply cleanup_loop_all_locked. intros p Hp.
  apply (Permutation_in _ Hperm') in Hp.
  destruct (Hsurv p Hp) as (_ & Hl & Hf). unfold is_locked in *. now rewrite Hf.
Qed.

Lemma cleanup_videos_twice_witness :
  cleanup_videos (120 * MB) locked_dir = Return locked_after /\
  cleanup_videos (120 * MB) locked_after = Return locked_after.
Proof.
  assert (H : cleanup_videos (120 * MB) locked_dir = Return locked_after) by reflexivity.
  split; [exact H|].
  exact (cleanup_videos_twice (120 * MB) locked_dir locked_after H).
Defined.

(** ** Only matching files count *)

Lemma filter_twice {A : Type} (f : A -> bool) (l : list A) :
  filter f (filter f l) = filter f l.
Proof.
  induction l as [|x l IH]; simpl; [reflexivity|].
  destruct (f x) eqn:E; simpl; [rewrite E|]; now rewrite IH.
Qed.

Lemma max_loop_ext (key key' : string -> outcome Z) (items : list string)
    (best : option (string * Z)) :
  (forall q, In q items -> key q = key' q) ->
  max_loop key items best = max_loop key' items best.
Proof.
  revert best. induction items as [|item rest IH]; simpl; intros best H; [reflexivity|].
  rewrite <- (H item (or_introl eq_refl)). unfold obind.
  destruct (key item) as [val|]; [|reflexivity].
  destruct best as [[bp bv]|]; [destruct (val >? bv)|];
    apply IH; intros q Hq; apply H; now right.
Qed.

(** Entries that do not match ['*.mp4'] never influence
    [get_latest_video]: it answers as on the directory without them. *)
Theorem get_latest_video_only_videos (strftime_local : Z -> string) (d : directory) :
  get_latest_video strftime_local d =
  get_latest_video strftime_local (filter (fun e => is_mp4 (path e)) d).
Proof.
  set (d' := filter (fun e => is_mp4 (path e)) d).
  assert (Hglob : glob d' = glob d) by (unfold glob, d'; now rewrite filter_twice).
  assert (Hstat : forall p, In p (glob d) -> stat d' p = stat d p).
  { intros p Hp. apply In_glob in Hp. destruct Hp as (_ & _ & _ & Hm).
    unfold stat, d'.
    rewrite (find_filter_by_path (fun e => is_mp4 (path e)) true p d); [reflexivity|].
    intros e <-. exact Hm. }
  unfold get_latest_video. rewrite Hglob.
  assert (Hmax : py_max (fun p => s <-! stat d' p ;; Return (st_mtime s)) (glob d) =
                 py_max (fun p => s <-! stat d p ;; Return (st_mtime s)) (glob d)).
  { unfold py_max. f_equal. apply max_loop_ext. intros q Hq. now rewrite (Hstat q Hq). }
  rewrite Hmax. clear Hmax.
  pose proof (py_max_spec (fun p => s <-! stat d p ;; Return (st_mtime s)) (glob d)) as H.
  destruct (py_max _ (glob d)) as [[p|]|]; try reflexivity.
  destruct H as (v & l1 & l2 & Hsplit & _).
  rewrite Hstat; [reflexivity|]. rewrite Hsplit. apply in_or_app. right. now left.
Qed.

(** ** A newer file becomes the latest *)

Lemma find_app_entry (f : entry -> bool) (l1 l2 : directory) :
  find f (l1 ++ l2) =
  match find f l1 with
  | Some x => Some x
  | None => find f l2
  end.
Proof.
  induction l1 as [|x l1 IH]; simpl; [reflexivity|]. now destruct (f x).
Qed.

Lemma find_absent (p : string) (d : directory) :
  ~ In p (map path d) -> find (has_path p) d = None.
Proof.
  intros H. induction d as [|x d IH]; simpl; [reflexivity|].
  destruct (has_path p x) eqn:Hx.
  - exfalso. apply H. left. now apply String.eqb_eq.
  - apply IH. intros Hin. apply H. now right.
Qed.

(** When a file matching ['*.mp4'] appears, under a name not yet in the
    directory and with a modification time after that of every matching
    file, [get_latest_video] returns the snapshot of that file, wherever
    the scan lists it. *)
Theorem newer_file_becomes_latest (strftime_local : Z -> string)
    (d1 d2 : directory) (p : string) (s : stat_result) (lk : bool) :
  is_mp4 p = true ->
  ~ In p (map path (d1 ++ d2)) ->
  (forall q, In q (glob (d1 ++ d2)) ->
     exists s', stat (d1 ++ d2) q = Return s' /\ st_mtime s' < st_mtime s) ->
  get_latest_video strftime_local (d1 ++ mk_entry p (Some s) lk :: d2) =
  Some (mk_info p (strftime_local (st_mtime s)) (strftime_local (st_ctime s))
          (strftime_local (st_atime s))).
Proof.
  intros Hm Hfresh Hold.
  set (d := d1 ++ mk_entry p (Some s) lk :: d2).
  assert (Hp1 : ~ In p (map path d1)).
  { intros H. apply Hfresh. rewrite map_app. apply in_or_app. now left. }
  assert (Hself : stat d p = Return s).
  { unfold stat, d. rewrite find_app_entry, (find_absent p d1 Hp1). simpl.
    unfold has_path. simpl. now rewrite String.eqb_refl. }
  assert (Hother : forall q, q <> p -> stat d q = stat (d1 ++ d2) q).
  { intros q Hq. unfold stat, d. rewrite !find_app_entry. simpl.
    unfold has_path at 2. simpl.
    destruct (String.eqb_spec p q) as [E|_]; [congruence|reflexivity]. }
  assert (Hglob : forall q, In q (glob d) <-> q = p \/ In q (glob (d1 ++ d2))).
  { intros q. unfold glob, d. rewrite !filter_app, !map_app. simpl. rewrite Hm. simpl.
    rewrite !in_app_iff. simpl. split; intros H; intuition congruence. }
  unfold get_latest_video.
  pose proof (py_max_spec (fun q => x <-! stat d q ;; Return (st_mtime x)) (glob d)) as H.
  destruct (py_max _ (glob d)) as [[r|]|].
  - destruct H as (v & l1 & l2 & Hsplit & Hk & Hall & _).
    assert (Hr : In r (glob d)) by (rewrite Hsplit; apply in_or_app; right; now left).
    destruct (String.eqb_spec r p) as [->|Hne]; [now rewrite Hself|].
    exfalso. apply Hglob in Hr. destruct Hr as [Hr|Hr]; [contradiction|].
    destruct (Hold r Hr) as (s' & Hs' & Hlt).
    unfold obind in Hk. rewrite (Hother r Hne), Hs' in Hk. injection Hk as <-.
    assert (Hle : st_mtime s <= st_mtime s').
    { apply (Hall p); [apply Hglob; now left|]. unfold obind. now rewrite Hself. }
    lia.
  - exfalso. assert (Hin : In p (glob d)) by (apply Hglob; now left).
    rewrite H in Hin. contradiction.
  - exfalso. destruct H as (q & ex & Hq & He). apply Hglob in Hq.
    unfold obind in He. destruct Hq as [->|Hq]; [now rewrite Hself in He|].
    destruct (Hold q Hq) as (s' & Hs' & _).
    assert (Hne : q <> p).
    { intros ->. apply Hfresh. apply In_glob in Hq. destruct Hq as (x & Hx & Hpx & _).
      apply in_map_iff. now exists x. }
    rewrite (Hother q Hne), Hs' in He. discriminate.
Qed.

Lemma newer_file_becomes_latest_witness :
  is_mp4 "clipC.mp4" = true /\
  ~ In "clipC.mp4" (map path ([clipA] ++ [clipB])) /\
  (forall q, In q (glob ([clipA] ++ [clipB])) ->
     exists s', stat ([clipA] ++ [clipB]) q = Return s' /\ st_mtime s' < st_mtime clipC) /\
  get_latest_video (fun _ => "") ([clipA] ++ mk_entry "clipC.mp4" (Some clipC) false :: [clipB]) =
  Some (mk_info "clipC.mp4" "" "" "").
Proof.
  assert (H1 : is_mp4 "clipC.mp4" = true) by reflexivity.
  assert (H2 : ~ In "clipC.mp4" (map path ([clipA] ++ [clipB]))).
  { simpl. intuition discriminate. }
  assert (H3 : forall q, In q (glob ([clipA] ++ [clipB])) ->
            exists s', stat ([clipA] ++ [clipB]) q = Return s' /\
                       st_mtime s' < st_mtime clipC).
  { intros q [<-|[<-|[]]]; eexists; (split; [reflexivity|]); vm_compute; reflexivity. }
  split; [exact H1|]. split; [exact H2|]. split; [exact H3|].
  exact (newer_file_becomes_latest (fun _ => "") [clipA] [clipB] "clipC.mp4" clipC false
           H1 H2 H3).
Defined.

End FsMore.

(** * More on the session *)

Module ObsMore.
Import Obs ObsTheory Inputs.

#[local] Hint Unfold is_connected is_process_running require_connection
  require_process_running sock_connected self_ws obsws_connect obsws_disconnect
  obsws_call obsws_new set_sock set_ws set_process emit advance time_sleep
  time_time try_except try_finally bind ret raise get lift self_get_latest_video : obs.

#[local] Arguments with_ws : simpl never.
#[local] Arguments with_process : simpl never.

Lemma nth_error_set_nth_same {A : Type} (n : nat) (x y : A) (l : list A) :
  nth_error l n = Some y -> nth_error (set_nth n x l) n = Some x.
Proof.
  revert n. induction l as [|z t IH]; intros [|n] H; simpl in *; try discriminate.
  - reflexivity.
  - now apply IH.
Qed.

Lemma replay_request_run (e : env) (q : request) (s : state) (r : ref) :
  connected_now s = true ->
  ws (self s) = Some r ->
  require_connection
    (try_except (r <- self_ws ;; obsws_call e r q ;;; ret true) (fun _ => ret false)) s =
  (Return (call_ok e),
   mk_state (self s) (heap s) (trace s ++ [EvCall r q])
     (clock s + Z.of_N (call_duration e))).
Proof.
  intros Hc Hr. rewrite require_connection_run, Hc.
  destruct s as [c h t k]. cbn [self] in Hr. mrun. rewrite Hr. mrun.
  destruct (call_ok e); reflexivity.
Qed.

(** ** Which exceptions leave the methods *)

Lemma cleanup_returns (e : env) (s : state) : fst (cleanup e s) = Return tt.
Proof.
  destruct s as [c h t k]. unfold cleanup. mrun.
  destruct (ws c) as [r|]; mrun.
  2:{ destruct (process c); reflexivity. }
  destruct (nth_error h r) as [o|] eqn:Ho; mrun; [|reflexivity].
  destruct (sock o) as [[|]|]; mrun; [| |reflexivity].
  - destruct (close_ok e); mrun; [|reflexivity].
    rewrite Ho. mrun. destruct (process c); reflexivity.
  - destruct (process c); reflexivity.
Qed.

(** The health check, [get_obs_version], [cleanup] and [launch_obs] never
    raise: every failure inside them ends in a returned value. *)
Theorem probes_never_raise (e : env) (s : state) :
  fst (websocket_connection_health_check e s) = Return (connect_ok e && close_ok e) /\
  (exists v, fst (get_obs_version e s) = Return v) /\
  fst (cleanup e s) = Return tt /\
  fst (launch_obs e s) = Return tt.
Proof.
  split; [now rewrite health_check_run|]. split; [|split].
  - destruct s as [c h t k]. unfold get_obs_version. mrun.
    destruct (connect_ok e), (call_ok e), (close_ok e); mrun;
      repeat (rewrite nth_error_last; mrun; rewrite ?set_nth_last; mrun);
      now eexists.
  - apply cleanup_returns.
  - destruct s as [c h t k]. unfold launch_obs, bind. rewrite is_process_running_run.
    cbn [self]. destruct (wmi_exec_query e _) as [n|]; cbn [truthy].
    + destruct (Nat.ltb 0 n); mrun; [reflexivity|]. destruct (popen e); reflexivity.
    + mrun. destruct (popen e); reflexivity.
Qed.

(** Each guarded method lets one exception out, and only for its own
    reason: [connect] raises [OBSProcessError] exactly when the process is
    not seen running, [disconnect] raises [OBSConnectionError] exactly when
    there is a handle whose close fails, and the three replay methods
    raise [OBSWebSocketError] exactly when [is_connected] is false. *)
Theorem raised_exceptions (e : env) (strftime_local : Z -> string) (fuel : nat)
    (s : state) (ex : exn) :
  (fst (connect e s) = Raise ex <->
     ex = OBSProcessError /\ running_now e s = false) /\
  (fst (disconnect e s) = Raise ex <->
     ex = OBSConnectionError /\ ws (self s) <> None /\ close_ok e = false) /\
  (fst (start_replay_buffer e s) = Raise ex <->
     ex = OBSWebSocketError /\ connected_now s = false) /\
  (fst (stop_replay_buffer e s) = Raise ex <->
     ex = OBSWebSocketError /\ connected_now s = false) /\
  (fst (save_replay e strftime_local fuel s) = Raise ex <->
     ex = OBSWebSocketError /\ connected_now s = false).
Proof.
  assert (Hreq : forall q,
    fst (require_connection
           (try_except (r <- self_ws ;; obsws_call e r q ;;; ret true)
              (fun _ => ret false)) s) = Raise ex <->
    ex = OBSWebSocketError /\ connected_now s = false).
  { intros q. destruct (connected_now s) eqn:Hc.
    - destruct (connected_now_ws s Hc) as [r Hr].
      rewrite (replay_request_run e q s r Hc Hr). cbn [fst].
      split; [discriminate|intros [_ H]; discriminate].
    - rewrite require_connection_run, Hc. cbn [fst].
      split; [intros H; injection H as <-; now split|intros [-> _]; reflexivity]. }
  split; [|split; [|split; [|split]]].
  - rewrite connect_run. destruct (running_now e s); cbn [fst].
    + split; [discriminate|intros [_ H]; discriminate].
    + split; [intros H; injection H as <-; now split|intros [-> _]; reflexivity].
  - rewrite disconnect_run. destruct (ws (self s)) as [r|]; cbn [fst].
    + destruct (close_ok e).
      * split; [discriminate|intros (_ & _ & H); discriminate].
      * split; [intros H; injection H as <-; repeat split; discriminate
               |intros (-> & _); reflexivity].
    + split; [discriminate|intros (_ & H & _); now contradiction H].
  - apply Hreq.
  - apply Hreq.
  - destruct (connected_now s) eqn:Hc.
    + destruct (connected_now_ws s Hc) as [r Hr].
      rewrite (save_replay_run e strftime_local fuel s r Hc Hr). cbv zeta.
      destruct (call_ok e).
      * match goal with
        | |- context [poll e strftime_local fuel ?b ?d ?s0] =>
            destruct (poll_frame e strftime_local b d fuel s0) as (v & s' & -> & _)
        end.
        cbn [fst]. split; [discriminate|intros [_ H]; discriminate].
      * cbn [fst]. split; [discriminate|intros [_ H]; discriminate].
    + unfold save_replay. rewrite require_connection_run, Hc. cbn [fst].
      split; [intros H; injection H as <-; now split|intros [-> _]; reflexivity].
Qed.

(** ** Connecting and disconnecting *)

Lemma disconnect_handle_run (e : env) (s : state) (r : ref) :
  ws (self s) = Some r ->
  disconnect e s =
  (if close_ok e then Return true else Raise OBSConnectionError,
   mk_state (with_ws (self s) None)
     (if close_ok e then
        match nth_error (heap s) r with
        | Some o => set_nth r (mk_obsws (o_host o) (o_port o) (o_password o) (Some false)) (heap s)
        | None => heap s
        end
      else heap s)
     (trace s ++ [EvDisconnect r]) (clock s)).
Proof. intros H. now rewrite disconnect_run, H. Qed.

Lemma with_ws_twice (c : OBSController) (w w' : option ref) :
  with_ws (with_ws c w) w' = with_ws c w'.
Proof. reflexivity. Qed.

(** A connection that is refused still leaves the new session object in
    [self.ws]: [connect] returns [False], [is_connected] is false and the
    replay methods are refused, but a later [disconnect] finds the handle
    and closes it. *)
Theorem refused_connect_keeps_the_handle (e : env) (s : state) :
  running_now e s = true ->
  connect_ok e = false ->
  fst (connect e s) = Return false /\
  ws (self (snd (connect e s))) = Some (List.length (heap s)) /\
  connected_now (snd (connect e s)) = false /\
  (forall e',
     start_replay_buffer e' (snd (connect e s)) =
       (Raise OBSWebSocketError, snd (connect e s))) /\
  (forall e',
     fst (disconnect e' (snd (connect e s))) =
       (if close_ok e' then Return true else Raise OBSConnectionError) /\
     trace (snd (disconnect e' (snd (connect e s)))) =
       trace s ++ [EvConnect (List.length (heap s)); EvDisconnect (List.length (heap s))]).
Proof.
  intros Hrun Hno. rewrite connect_run, Hrun, Hno. cbn [fst snd].
  assert (Hc : connected_now
                 (mk_state (with_ws (self s) (Some (List.length (heap s))))
                    (heap s ++ [session_of (self s) (Some false)])
                    (trace s ++ [EvConnect (List.length (heap s))]) (clock s)) = false).
  { rewrite connected_now_handle. cbn [self heap ws with_ws].
    unfold with_ws. cbn [ws]. now rewrite nth_error_last. }
  split; [reflexivity|]. split; [reflexivity|]. split; [exact Hc|]. split.
  - intros e'. unfold start_replay_buffer. now rewrite require_connection_run, Hc.
  - intros e'.
    erewrite disconnect_handle_run by reflexivity.
    cbn [fst snd trace]. split; [reflexivity|]. now rewrite <- app_assoc.
Qed.

Lemma refused_connect_keeps_the_handle_witness :
  running_now connect_refused fresh = true /\
  connect_ok connect_refused = false /\
  fst (connect connect_refused fresh) = Return false /\
  ws (self (snd (connect connect_refused fresh))) = Some 0%nat /\
  connected_now (snd (connect connect_refused fresh)) = false /\
  fst (disconnect obs_up (snd (connect connect_refused fresh))) = Return true.
Proof.
  destruct (refused_connect_keeps_the_handle connect_refused fresh eq_refl eq_refl)
    as (H1 & H2 & H3 & _ & H5).
  split; [reflexivity|]. split; [reflexivity|]. split; [exact H1|].
  split; [exact H2|]. split; [exact H3|]. exact (proj1 (H5 obs_up)).
Defined.

(** From a controller that holds no handle, [connect] followed by
    [disconnect], both succeeding, brings the controller back to where it
    was: the controller object is the one before, not connected, as many
    live sessions as before, every earlier session object untouched; what
    remains is one closed session object and the two events. *)
Theorem connect_then_disconnect (e e' : env) (s : state) :
  ws (self s) = None ->
  running_now e s = true ->
  connect_ok e = true ->
  close_ok e' = true ->
  fst (connect e s) = Return true /\
  connected_now (snd (connect e s)) = true /\
  fst (disconnect e' (snd (connect e s))) = Return true /\
  self (snd (disconnect e' (snd (connect e s)))) = self s /\
  connected_now (snd (disconnect e' (snd (connect e s)))) = false /\
  heap (snd (disconnect e' (snd (connect e s)))) =
    heap s ++ [session_of (self s) (Some false)] /\
  live_sessions (heap (snd (disconnect e' (snd (connect e s))))) =
    live_sessions (heap s) /\
  trace (snd (disconnect e' (snd (connect e s)))) =
    trace s ++ [EvConnect (List.length (heap s)); EvDisconnect (List.length (heap s))] /\
  clock (snd (disconnect e' (snd (connect e s)))) = clock s.
Proof.
  intros Hnone Hrun Hok Hclose.
  assert (Hself : with_ws (self s) None = self s).
  { destruct (self s). cbn [ws] in Hnone. subst. reflexivity. }
  rewrite connect_run, Hrun, Hok. cbn [fst snd].
  split; [reflexivity|]. split.
  { rewrite connected_now_handle. unfold with_ws. cbn [self heap ws].
    now rewrite nth_error_last. }
  erewrite disconnect_handle_run by reflexivity. rewrite Hclose.
  cbn [self fst snd heap trace clock].
  rewrite nth_error_last. cbn [o_host o_port o_password session_of]. rewrite set_nth_last.
  rewrite with_ws_twice, Hself.
  split; [reflexivity|]. split; [reflexivity|]. split.
  { rewrite connected_now_handle. cbn [self]. rewrite Hnone. reflexivity. }
  split; [reflexivity|]. split.
  { rewrite live_sessions_app. cbn. lia. }
  split; [now rewrite <- app_assoc|reflexivity].
Qed.

Lemma connect_then_disconnect_witness :
  ws (self fresh) = None /\
  running_now obs_up fresh = true /\
  connect_ok obs_up = true /\
  close_ok obs_up = true /\
  fst (disconnect obs_up (snd (connect obs_up fresh))) = Return true /\
  self (snd (disconnect obs_up (snd (connect obs_up fresh)))) = self fresh /\
  connected_now (snd (disconnect obs_up (snd (connect obs_up fresh)))) = false /\
  live_sessions (heap (snd (disconnect obs_up (snd (connect obs_up fresh))))) =
    live_sessions (heap fresh).
Proof.
  destruct (connect_then_disconnect obs_up obs_up fresh eq_refl eq_refl eq_refl eq_refl)
    as (_ & _ & H3 & H4 & H5 & _ & H7 & _).
  split; [reflexivity|]. split; [reflexivity|]. split; [reflexivity|].
  split; [reflexivity|].
  split; [exact H3|]. split; [exact H4|]. split; [exact H5|exact H7].
Defined.

(** A [disconnect] with no handle returns [False] and does nothing; so a
    second [disconnect] in a row always returns [False], sends nothing and
    leaves the state as the first one left it. *)
Theorem disconnect_twice (e e' : env) (s : state) :
  (ws (self s) = None -> disconnect e s = (Return false, s)) /\
  disconnect e' (snd (disconnect e s)) = (Return false, snd (disconnect e s)).
Proof.
  split.
  - intros H. rewrite disconnect_run, H. reflexivity.
  - rewrite (disconnect_run e' (snd (disconnect e s))).
    rewrite (disconnect_run e s). destruct (ws (self s)) as [r|] eqn:Hw; cbn [snd self].
    + unfold with_ws. cbn [ws]. reflexivity.
    + now rewrite Hw.
Qed.

(** ** Launching and cleaning up *)

(** [launch_obs] does nothing when the process is seen running.  Otherwise
    it spawns once, the executable of [cwd] first and the five fixed
    arguments after it, and records the pid; a spawn that fails is
    swallowed and leaves [self.process] as it was.  Sessions and the handle
    are not touched in any case. *)
Theorem launch_obs_spawns_when_down (e : env) (s : state) :
  (running_now e s = true -> launch_obs e s = (Return tt, s)) /\
  (running_now e s = false ->
     trace (snd (launch_obs e s)) =
       trace s ++
       [EvSpawn [(cwd (self s) ++ "/" ++ process_name (self s))%string;
                 "--minimize-to-tray"; "--disable-updater";
                 "--disable-shutdown-check"; "--profile"; "obs_controller"]] /\
     self (snd (launch_obs e s)) =
       match popen e with
       | Return pid => with_process (self s) (Some pid)
       | Raise _ => self s
       end) /\
  heap (snd (launch_obs e s)) = heap s /\
  ws (self (snd (launch_obs e s))) = ws (self s) /\
  clock (snd (launch_obs e s)) = clock s.
Proof.
  unfold running_now. destruct s as [c h t k]. unfold launch_obs, bind.
  rewrite is_process_running_run. cbn [self fst].
  destruct (wmi_exec_query e _) as [n|]; cbn [truthy].
  - destruct (Nat.ltb 0 n); mrun.
    + repeat split; try reflexivity; discriminate.
    + destruct (popen e); mrun; repeat split; try reflexivity; discriminate.
  - mrun. destruct (popen e); mrun; repeat split; try reflexivity; discriminate.
Qed.

(** In [cleanup] the disconnect and the terminate share one [try]: with a
    connected session and a process handle, a close that succeeds is
    followed by the terminate request, and a close that raises ends the
    method before the process is terminated.  Without a handle the process
    is terminated directly. *)
Theorem cleanup_failed_close_skips_terminate (e : env) (s : state) (pid : nat) :
  process (self s) = Some pid ->
  (forall r, ws (self s) = Some r -> connected_now s = true ->
     trace (snd (cleanup e s)) =
       trace s ++ EvDisconnect r :: (if close_ok e then [EvTerminate pid] else [])) /\
  (ws (self s) = None ->
     trace (snd (cleanup e s)) = trace s ++ [EvTerminate pid]) /\
  fst (cleanup e s) = Return tt /\
  self (snd (cleanup e s)) = self s.
Proof.
  intros Hp. split; [|split; [|split]].
  - intros r Hr Hc. rewrite connected_now_handle, Hr in Hc.
    destruct s as [c h t k]. cbn [self heap] in *. unfold cleanup. mrun. rewrite Hr. mrun.
    destruct (nth_error h r) as [o|] eqn:Ho; [|discriminate]. mrun.
    unfold is_live in Hc. destruct (sock o) as [[|]|]; try discriminate. mrun.
    destruct (close_ok e); mrun; [|reflexivity].
    rewrite Ho. mrun. rewrite Hp. mrun. now rewrite <- app_assoc.
  - intros Hw. destruct s as [c h t k]. cbn [self] in *. unfold cleanup. mrun.
    rewrite Hw. mrun. rewrite Hp. reflexivity.
  - apply cleanup_returns.
  - apply cleanup_heap.
Qed.

Lemma cleanup_failed_close_skips_terminate_witness :
  process (self supervised) = Some 4242%nat /\
  ws (self supervised) = Some 0%nat /\
  connected_now supervised = true /\
  trace (snd (cleanup close_refused supervised)) =
    trace supervised ++ [EvDisconnect 0%nat] /\
  trace (snd (cleanup obs_up supervised)) =
    trace supervised ++ [EvDisconnect 0%nat; EvTerminate 4242%nat].
Proof.
  destruct (cleanup_failed_close_skips_terminate close_refused supervised 4242%nat eq_refl)
    as (H1 & _).
  destruct (cleanup_failed_close_skips_terminate obs_up supervised 4242%nat eq_refl)
    as (H2 & _).
  split; [reflexivity|]. split; [reflexivity|]. split; [reflexivity|].
  split; [exact (H1 0%nat eq_refl eq_refl)|exact (H2 0%nat eq_refl eq_refl)].
Defined.

(** [cleanup] clears neither [self.ws] nor [self.process]: run again
    after a pass that closed the session, it finds the session closed,
    sends no second disconnect, and requests the termination of the same
    process once more. *)
Theorem cleanup_twice_terminates_again (e e' : env) (s : state) (r : ref) (pid : nat) :
  ws (self s) = Some r ->
  connected_now s = true ->
  process (self s) = Some pid ->
  close_ok e = true ->
  connected_now (snd (cleanup e s)) = false /\
  trace (snd (cleanup e' (snd (cleanup e s)))) =
    trace s ++ [EvDisconnect r; EvTerminate pid; EvTerminate pid].
Proof.
  intros Hr Hc Hp Hclose. rewrite connected_now_handle, Hr in Hc.
  destruct s as [c h t k]. cbn [self heap] in *.
  destruct (nth_error h r) as [o|] eqn:Ho; [|discriminate].
  unfold is_live in Hc. destruct (sock o) as [[|]|] eqn:Hs; try discriminate.
  assert (Hfirst : cleanup e (mk_state c h t k) =
            (Return tt,
             mk_state c
               (set_nth r (mk_obsws (o_host o) (o_port o) (o_password o) (Some false)) h)
               (t ++ [EvDisconnect r; EvTerminate pid]) k)).
  { unfold cleanup. mrun. rewrite Hr. mrun. rewrite Ho. mrun. rewrite Hs. mrun.
    rewrite Hclose. mrun. rewrite Ho. mrun. rewrite Hp. mrun.
    now rewrite <- app_assoc. }
  rewrite Hfirst. cbn [snd]. split.
  - rewrite connected_now_handle. cbn [self heap]. rewrite Hr.
    now rewrite (nth_error_set_nth_same r _ o h Ho).
  - unfold cleanup. mrun. rewrite Hr. mrun.
    rewrite (nth_error_set_nth_same r _ o h Ho). mrun. rewrite Hp. mrun.
    now rewrite <- app_assoc.
Qed.

Lemma cleanup_twice_terminates_again_witness :
  ws (self supervised) = Some 0%nat /\
  connected_now supervised = true /\
  process (self supervised) = Some 4242%nat /\
  close_ok obs_up = true /\
  connected_now (snd (cleanup obs_up supervised)) = false /\
  trace (snd (cleanup obs_up (snd (cleanup obs_up supervised)))) =
    trace supervised ++ [EvDisconnect 0%nat; EvTerminate 4242%nat; EvTerminate 4242%nat].
Proof.
  split; [reflexivity|]. split; [reflexivity|]. split; [reflexivity|].
  split; [reflexivity|].
  exact (cleanup_twice_terminates_again obs_up obs_up supervised 0%nat 4242%nat
           eq_refl eq_refl eq_refl eq_refl).
Defined.

(** ** The version probe *)

(** [get_obs_version] never raises: it returns the version string when the
    connection and the request both succeed and ["Unknown"] otherwise.  Its
    session is one of its own, and the [finally] clause sends the
    disconnect in every case, also after a connection that failed; the
    controller object and the earlier session objects are left alone. *)
Theorem get_obs_version_outcome (e : env) (s : state) :
  fst (get_obs_version e s) =
    Return (if connect_ok e && call_ok e then obs_version e else "Unknown") /\
  trace (snd (get_obs_version e s)) =
    trace s ++ EvConnect (List.length (heap s)) ::
      (if connect_ok e then [EvCall (List.length (heap s)) GetVersion] else []) ++
      [EvDisconnect (List.length (heap s))] /\
  self (snd (get_obs_version e s)) = self s /\
  (forall r o, nth_error (heap s) r = Some o ->
     nth_error (heap (snd (get_obs_version e s))) r = Some o).
Proof.
  split; [|split; [|split]].
  - destruct s as [c h t k]. unfold get_obs_version. mrun.
    destruct (connect_ok e), (call_ok e), (close_ok e); mrun;
      repeat (rewrite nth_error_last; mrun; rewrite ?set_nth_last; mrun);
      reflexivity.
  - destruct s as [c h t k]. unfold get_obs_version. mrun.
    destruct (connect_ok e), (call_ok e), (close_ok e); mrun;
      repeat (rewrite nth_error_last; mrun; rewrite ?set_nth_last; mrun);
      cbn [app]; rewrite <- ?app_assoc; reflexivity.
  - apply get_obs_version_run.
  - intros r o Ho. rewrite (proj1 (get_obs_version_run e s)). now apply nth_error_old.
Qed.

(** ** The replay requests *)

(** The three replay methods leave the controller object and the session
    objects as they are, so what [is_connected] answers is unchanged and
    the methods can follow one another: on a connected controller
    [start_replay_buffer] then [stop_replay_buffer] send the two requests
    on the same session, each returning whether its request went
    through. *)
Theorem replay_requests_chain (e e' : env) (strftime_local : Z -> string)
    (fuel : nat) (s : state) :
  connected_now (snd (start_replay_buffer e s)) = connected_now s /\
  connected_now (snd (stop_replay_buffer e s)) = connected_now s /\
  connected_now (snd (save_replay e strftime_local fuel s)) = connected_now s /\
  (forall r, ws (self s) = Some r -> connected_now s = true ->
     fst (start_replay_buffer e s) = Return (call_ok e) /\
     fst (stop_replay_buffer e' (snd (start_replay_buffer e s))) = Return (call_ok e') /\
     trace (snd (stop_replay_buffer e' (snd (start_replay_buffer e s)))) =
       trace s ++ [EvCall r StartReplayBuffer; EvCall r StopReplayBuffer]).
Proof.
  assert (Hsame : forall s', self s' = self s -> heap s' = heap s ->
            connected_now s' = connected_now s).
  { intros s' Hs Hh. now rewrite !connected_now_handle, Hs, Hh. }
  split; [|split; [|split]].
  - destruct (replay_request_heap e StartReplayBuffer s) as [Hh Hs]. now apply Hsame.
  - destruct (replay_request_heap e StopReplayBuffer s) as [Hh Hs]. now apply Hsame.
  - destruct (save_replay_heap e strftime_local fuel s) as [Hh Hs]. now apply Hsame.
  - intros r Hr Hc. unfold start_replay_buffer, stop_replay_buffer.
    rewrite (replay_request_run e StartReplayBuffer s r Hc Hr). cbn [fst snd].
    split; [reflexivity|].
    erewrite replay_request_run.
    + cbn [fst snd trace]. split; [reflexivity|]. now rewrite <- app_assoc.
    + rewrite connected_now_handle in *. exact Hc.
    + exact Hr.
Qed.

(** ** The timing of [save_replay] *)

Section PollTiming.

Variable e : env.
Variable strftime_local : Z -> string.
Variable before : option Fs.VideoFileInfo.
Variable deadline : Z.

Lemma poll_first_sighting (i : nat) (fuel : nat) (s : state) :
  (forall j : nat, (j < i)%nat ->
     seen_at e strftime_local before (clock s + Z.of_nat j * poll_step e) = false) ->
  seen_at e strftime_local before (clock s + Z.of_nat i * poll_step e) = true ->
  clock s + Z.of_nat i * poll_step e <= deadline ->
  (Z.to_nat (deadline - clock s + 1) <= fuel)%nat ->
  poll e strftime_local fuel before deadline s =
  (Return (Some true),
   mk_state (self s) (heap s) (trace s)
     (clock s + Z.of_nat i * poll_step e + Z.of_N (scan_duration e))).
Proof.
  revert fuel s. induction i as [|j IH]; intros fuel [c h t k] Hno Hyes Hle Hfuel;
    cbn [clock self heap trace] in *.
  - rewrite Z.mul_0_l, Z.add_0_r in *.
    destruct fuel as [|n]; [lia|]. mrun.
    destruct (Z.leb_spec k deadline) as [_|Hgt]; [|lia]. mrun.
    unfold seen_at in Hyes. rewrite Hyes. reflexivity.
  - assert (Hpos : 0 <= Z.of_nat (S j) * poll_step e)
      by (apply Z.mul_nonneg_nonneg; unfold poll_step; lia).
    destruct fuel as [|n]; [lia|]. mrun.
    destruct (Z.leb_spec k deadline) as [_|Hgt]; [|lia]. mrun.
    pose proof (Hno 0%nat (Nat.lt_0_succ j)) as H0.
    rewrite Z.mul_0_l, Z.add_0_r in H0. unfold seen_at in H0. rewrite H0. mrun.
    rewrite (IH n (mk_state c h t (k + Z.of_N (scan_duration e) + 1)));
      cbn [clock self heap trace].
    + do 2 f_equal. unfold poll_step. lia.
    + intros j' Hj'.
      replace (k + Z.of_N (scan_duration e) + 1 + Z.of_nat j' * poll_step e)
        with (k + Z.of_nat (S j') * poll_step e) by (unfold poll_step; lia).
      apply Hno. lia.
    + replace (k + Z.of_N (scan_duration e) + 1 + Z.of_nat j * poll_step e)
        with (k + Z.of_nat (S j) * poll_step e) by (unfold poll_step; lia).
      exact Hyes.
    + replace (k + Z.of_N (scan_duration e) + 1 + Z.of_nat j * poll_step e)
        with (k + Z.of_nat (S j) * poll_step e) by (unfold poll_step; lia).
      exact Hle.
    + lia.
Qed.

Lemma poll_timeout_upper (fuel : nat) (s : state) :
  (forall i : nat,
     clock s + Z.of_nat i * poll_step e <= deadline ->
     seen_at e strftime_local before (clock s + Z.of_nat i * poll_step e) = false) ->
  (Z.to_nat (deadline - clock s + 1) <= fuel)%nat ->
  exists s',
    poll e strftime_local fuel before deadline s = (Return (Some false), s') /\
    deadline < clock s' /\
    clock s' <= Z.max (clock s) (deadline + poll_step e).
Proof.
  revert s. induction fuel as [|n IH]; intros [c h t k] Hno Hfuel; cbn [clock] in *; mrun.
  - destruct (Z.leb_spec k deadline) as [Hle|Hgt]; [lia|].
    eexists; split; [reflexivity|]. cbn [clock]. lia.
  - destruct (Z.leb_spec k deadline) as [Hle|Hgt]; mrun.
    2:{ eexists; split; [reflexivity|]. cbn [clock]. lia. }
    pose proof (Hno 0%nat) as H0. rewrite Z.mul_0_l, Z.add_0_r in H0.
    unfold seen_at in H0. rewrite (H0 Hle). mrun.
    destruct (IH (mk_state c h t (k + Z.of_N (scan_duration e) + 1)))
      as (s' & -> & Hd & Hu).
    + cbn [clock]. intros i Hi.
      replace (k + Z.of_N (scan_duration e) + 1 + Z.of_nat i * poll_step e)
        with (k + Z.of_nat (S i) * poll_step e) in * by (unfold poll_step; lia).
      now apply Hno.
    + cbn [clock]. lia.
    + cbn [clock] in *. eexists; split; [reflexivity|]. split; [exact Hd|].
      unfold poll_step in *. lia.
Qed.

End PollTiming.

(** Success is reported by the first poll that sees a new file: the call
    returns [True] when the scan of that poll ends, without another
    sleep. *)
Theorem save_replay_returns_at_first_sighting (e : env) (strftime_local : Z -> string)
    (s : state) (fuel : nat) (i : nat) :
  connected_now s = true ->
  call_ok e = true ->
  (poll_bound (timeout (self s)) <= fuel)%nat ->
  let before := Fs.get_latest_video strftime_local (dir_at e (clock s)) in
  let deadline := clock s + Z.of_N (scan_duration e) + timeout (self s) in
  let first_poll := clock s + Z.of_N (scan_duration e) + Z.of_N (call_duration e) in
  let poll_at := fun j : nat => first_poll + Z.of_nat j * poll_step e in
  poll_at i <= deadline ->
  seen_at e strftime_local before (poll_at i) = true ->
  (forall j : nat, (j < i)%nat -> seen_at e strftime_local before (poll_at j) = false) ->
  fst (save_replay e strftime_local fuel s) = Return (Some true) /\
  clock (snd (save_replay e strftime_local fuel s)) =
    poll_at i + Z.of_N (scan_duration e).
Proof.
  intros Hc Hok Hfuel before deadline first_poll poll_at Hle Hyes Hno.
  destruct (connected_now_ws s Hc) as [r Hr].
  rewrite (save_replay_run e strftime_local fuel s r Hc Hr). cbv zeta. rewrite Hok.
  fold before deadline first_poll.
  rewrite (poll_first_sighting e strftime_local before deadline i fuel); cbn [clock].
  - now split.
  - exact Hno.
  - exact Hyes.
  - exact Hle.
  - unfold poll_bound in Hfuel. subst deadline first_poll. lia.
Qed.

Lemma save_replay_returns_at_first_sighting_witness :
  (connected_now (linked 10) = true /\
   call_ok clip_arrives = true /\
   (poll_bound (timeout (self (linked 10))) <= poll_bound 10)%nat) /\
  fst (save_replay clip_arrives render (poll_bound 10) (linked 10)) = Return (Some true) /\
  clock (snd (save_replay clip_arrives render (poll_bound 10) (linked 10))) = 2.
Proof.
  assert (H3 : (poll_bound (timeout (self (linked 10))) <= poll_bound 10)%nat)
    by (vm_compute; lia).
  split; [now repeat split|].
  apply (save_replay_returns_at_first_sighting clip_arrives render (linked 10)
           (poll_bound 10) 2 eq_refl eq_refl H3).
  - vm_compute. discriminate.
  - reflexivity.
  - intros j Hj. destruct j as [|[|j]]; [reflexivity|reflexivity|lia].
Defined.

(** A call that times out does so within one poll step after the
    deadline: when the request has returned by the deadline and no poll
    taken by the deadline sees a new file, [save_replay] returns [False]
    with the clock after the deadline by at most one scan and one sleep. *)
Theorem save_replay_gives_up_within_a_step (e : env) (strftime_local : Z -> string)
    (s : state) (fuel : nat) :
  connected_now s = true ->
  call_ok e = true ->
  Z.of_N (call_duration e) <= timeout (self s) ->
  (poll_bound (timeout (self s)) <= fuel)%nat ->
  let before := Fs.get_latest_video strftime_local (dir_at e (clock s)) in
  let deadline := clock s + Z.of_N (scan_duration e) + timeout (self s) in
  let first_poll := clock s + Z.of_N (scan_duration e) + Z.of_N (call_duration e) in
  let poll_at := fun j : nat => first_poll + Z.of_nat j * poll_step e in
  (forall j : nat, poll_at j <= deadline ->
     seen_at e strftime_local before (poll_at j) = false) ->
  fst (save_replay e strftime_local fuel s) = Return (Some false) /\
  deadline < clock (snd (save_replay e strftime_local fuel s)) /\
  clock (snd (save_replay e strftime_local fuel s)) <= deadline + poll_step e.
Proof.
  intros Hc Hok Hcd Hfuel before deadline first_poll poll_at Hno.
  destruct (connected_now_ws s Hc) as [r Hr].
  rewrite (save_replay_run e strftime_local fuel s r Hc Hr). cbv zeta. rewrite Hok.
  fold before deadline first_poll.
  destruct (poll_timeout_upper e strftime_local before deadline fuel
              (mk_state (self s) (heap s) (trace s ++ [EvCall r SaveReplayBuffer])
                 first_poll)) as (s' & -> & Hd & Hu).
  - exact Hno.
  - unfold poll_bound in Hfuel. subst deadline first_poll. cbn [clock]. lia.
  - cbn [fst snd clock] in *. split; [reflexivity|]. split; [exact Hd|].
    unfold poll_step in *. subst deadline first_poll. lia.
Qed.

Lemma save_replay_gives_up_within_a_step_witness :
  (connected_now (linked 3) = true /\
   call_ok rewriting = true /\
   Z.of_N (call_duration rewriting) <= timeout (self (linked 3)) /\
   (poll_bound (timeout (self (linked 3))) <= poll_bound 3)%nat) /\
  fst (save_replay rewriting render (poll_bound 3) (linked 3)) = Return (Some false) /\
  3 < clock (snd (save_replay rewriting render (poll_bound 3) (linked 3))) /\
  clock (snd (save_replay rewriting render (poll_bound 3) (linked 3))) <= 3 + 1.
Proof.
  assert (H3 : Z.of_N (call_duration rewriting) <= timeout (self (linked 3)))
    by (vm_compute; discriminate).
  assert (H4 : (poll_bound (timeout (self (linked 3))) <= poll_bound 3)%nat)
    by (vm_compute; lia).
  split; [now repeat split|].
  apply (save_replay_gives_up_within_a_step rewriting render (linked 3) (poll_bound 3)
           eq_refl eq_refl H3 H4).
  intros j _. reflexivity.
Defined.

End ObsMore.

(** * More on the configuration files *)

Module IniMore.
Import Obs Ini Inputs.

(** ** Dictionaries *)

Lemma dict_get_set_same {V : Type} (k : string) (v : V) (d : list (string * V)) :
  dict_get k (dict_set k v d) = Some v.
Proof.
  induction d as [|[k' v'] t IH]; simpl.
  - now rewrite String.eqb_refl.
  - destruct (String.eqb k' k) eqn:E; simpl; [now rewrite String.eqb_refl|].
    now rewrite E.
Qed.

Lemma dict_get_set_other {V : Type} (k k0 : string) (v : V) (d : list (string * V)) :
  k0 <> k -> dict_get k0 (dict_set k v d) = dict_get k0 d.
Proof.
  intros Hne. induction d as [|[k' v'] t IH]; simpl.
  - destruct (String.eqb_spec k k0); [congruence|reflexivity].
  - destruct (String.eqb_spec k' k) as [->|Hk]; simpl.
    + destruct (String.eqb_spec k k0); [congruence|reflexivity].
    + destruct (String.eqb k' k0); [reflexivity|exact IH].
Qed.

Lemma dict_set_keys {V : Type} (k : string) (v v0 : V) (d : list (string * V)) :
  dict_get k d = Some v0 -> map fst (dict_set k v d) = map fst d.
Proof.
  induction d as [|[k' v'] t IH]; simpl; [discriminate|].
  destruct (String.eqb_spec k' k) as [->|Hk]; simpl; [reflexivity|].
  intros H. now rewrite IH.
Qed.

Lemma dict_set_set {V : Type} (k : string) (v v' : V) (d : list (string * V)) :
  dict_set k v (dict_set k v' d) = dict_set k v d.
Proof.
  induction d as [|[k' v0] t IH]; simpl.
  - now rewrite String.eqb_refl.
  - destruct (String.eqb k' k) eqn:E; simpl; [now rewrite String.eqb_refl|].
    now rewrite E, IH.
Qed.

Lemma pair_differs (a b c d : string) : (a, b) <> (c, d) -> a <> c \/ b <> d.
Proof.
  intros H. destruct (String.eqb_spec a c) as [->|Hne]; [|now left].
  right. intros ->. now apply H.
Qed.

(** ** Marks, prefixes and directories *)

Lemma strip_prefix_app (pre s : string) : strip_prefix pre (pre ++ s) = Some s.
Proof.
  induction pre as [|a pre IH]; simpl; [now destruct s|].
  now rewrite Ascii.eqb_refl.
Qed.

Lemma strip_bom_mark (text : string) : strip_bom (bom ++ text) = text.
Proof. unfold strip_bom. now rewrite strip_prefix_app. Qed.

Lemma strip_bom_plain (text : string) :
  strip_prefix bom text = None -> strip_bom text = text.
Proof. intros H. unfold strip_bom. now rewrite H. Qed.

Lemma prefix_app (a b : string) : String.prefix a (a ++ b) = true.
Proof.
  induction a as [|c a IH]; simpl; [now destruct b|].
  destruct (ascii_dec c c); [exact IH|contradiction].
Qed.

Lemma string_app_assoc (a b c : string) : ((a ++ b) ++ c = a ++ (b ++ c))%string.
Proof. induction a as [|x a IH]; simpl; [reflexivity|now rewrite IH]. Qed.

Lemma under_child (dir name : string) : under dir (dir ++ "/" ++ name) = true.
Proof. unfold under. rewrite <- string_app_assoc. apply prefix_app. Qed.

Lemma dict_get_rmtree_outside (fs : files) (dir p : string) :
  under dir p = false -> dict_get p (rmtree fs dir) = dict_get p fs.
Proof.
  intros H. unfold rmtree. induction fs as [|[q c] fs IH]; simpl; [reflexivity|].
  destruct (under dir q) eqn:Hq; simpl.
  - destruct (String.eqb_spec q p) as [->|_]; [congruence|exact IH].
  - destruct (String.eqb q p); [reflexivity|exact IH].
Qed.

Lemma dict_get_rmtree_inside (fs : files) (dir p : string) :
  under dir p = true -> dict_get p (rmtree fs dir) = None.
Proof.
  intros H. unfold rmtree. induction fs as [|[q c] fs IH]; simpl; [reflexivity|].
  destruct (under dir q) eqn:Hq; simpl; [exact IH|].
  destruct (String.eqb_spec q p) as [->|_]; [congruence|exact IH].
Qed.

Lemma dict_get_no_dir (fs : files) (dir p : string) :
  dir_exists fs dir = false -> under dir p = true -> dict_get p fs = None.
Proof.
  unfold dir_exists. intros Hd H. induction fs as [|[q c] fs IH]; simpl; [reflexivity|].
  simpl in Hd. apply orb_false_iff in Hd. destruct Hd as [Hq Hd].
  destruct (String.eqb_spec q p) as [->|_]; [congruence|now apply IH].
Qed.

Section Library.

Variable read_string : string -> outcome config.
Variable read_config_file : string -> outcome config.
Variable write_config : config -> string.
Variable before_set_ok : string -> bool.
Variable as_posix : string -> string.
Variable rmtree_fails : bool.
Variable rmtree_leftover : files.
Variable write_fails : bool.
Variable write_leftover : files.

(** One assignment changes one option of one section that exists. *)
Lemma set_item_spec (c c' : config) (sec opt value : string) :
  set_item before_set_ok c sec opt value = Return c' ->
  defaults c' = defaults c /\
  map fst (sections c') = map fst (sections c) /\
  (forall sec', sec' <> sec -> dict_get sec' (sections c') = dict_get sec' (sections c)) /\
  get_option c' sec opt = Some value /\
  (forall opt', opt' <> opt -> get_option c' sec opt' = get_option c sec opt').
Proof.
  unfold set_item, get_option.
  destruct (dict_get sec (sections c)) as [opts|] eqn:Hs; [|discriminate].
  destruct (negb (value =? "")%string && negb (before_set_ok value)); [discriminate|].
  intros H. injection H as <-. cbn [defaults sections].
  split; [reflexivity|]. split; [now apply (dict_set_keys sec _ opts)|].
  split; [intros sec' Hne; now apply dict_get_set_other|].
  rewrite dict_get_set_same. split; [apply dict_get_set_same|].
  intros opt' Hne. now apply dict_get_set_other.
Qed.

Lemma set_item_needs_section (c : config) (sec opt value : string) :
  dict_get sec (sections c) = None ->
  set_item before_set_ok c sec opt value = Raise LibraryError.
Proof. intros H. unfold set_item. now rewrite H. Qed.

Lemma set_item_refused (c : config) (sec opt value : string) :
  value <> "" -> before_set_ok value = false ->
  set_item before_set_ok c sec opt value = Raise LibraryError.
Proof.
  intros Hne Hb. unfold set_item. destruct (dict_get sec (sections c)); [|reflexivity].
  rewrite Hb. destruct (String.eqb_spec value ""); [contradiction|reflexivity].
Qed.

Lemma set_item_other (c c' : config) (sec opt value sec' opt' : string) :
  set_item before_set_ok c sec opt value = Return c' ->
  sec' <> sec \/ opt' <> opt ->
  get_option c' sec' opt' = get_option c sec' opt'.
Proof.
  intros H Hne. apply set_item_spec in H. destruct H as (_ & _ & S & _ & O).
  destruct (String.eqb_spec sec' sec) as [->|Hs].
  - apply O. destruct Hne as [Hne|Hne]; [contradiction|exact Hne].
  - unfold get_option. now rewrite (S sec' Hs).
Qed.

Lemma path_exists_file (fs : files) (p bytes : string) :
  dict_get p fs = Some bytes -> path_exists fs p = true.
Proof. intros H. unfold path_exists. now rewrite H. Qed.

(** ** [enable_websocket] *)

(** [enable_websocket] returns [False] exactly when nothing stands at the
    path of [global.ini], and then it has touched nothing.  The only
    exception it lets out is [RuntimeError].  Unless it returns [True] the
    files are as they were, the one exception being a failure of the write
    itself. *)
Theorem enable_websocket_all_or_nothing (self : OBSController) (fs : files) :
  let run :=
    enable_websocket read_string write_config before_set_ok write_fails write_leftover
      self fs in
  (fst run = Return false <-> path_exists fs (obs_global_ini self) = false) /\
  (fst run = Return false -> snd run = fs) /\
  (forall ex, fst run = Raise ex -> ex = RuntimeError) /\
  (fst run = Return true \/ snd run = fs \/
   (write_fails = true /\ snd run = write_leftover)).
Proof.
  intros run. subst run. unfold enable_websocket.
  destruct (path_exists fs (obs_global_ini self)); cbn [negb fst snd].
  - match goal with |- context [match ?m with Return _ => _ | Raise _ => _ end] =>
      destruct m as [c|ex0] end.
    + destruct write_fails; cbn [fst snd].
      * split; [split; discriminate|]. split; [discriminate|].
        split; [intros ex H; now injection H as <-|]. right. right. now split.
      * split; [split; discriminate|]. split; [discriminate|].
        split; [discriminate|now left].
    + cbn [fst snd]. split; [split; discriminate|]. split; [discriminate|].
      split; [intros ex H; now injection H as <-|]. right. now left.
  - split; [now split|]. split; [reflexivity|]. split; [discriminate|]. right. now left.
Qed.

(** A failure before the write leaves every file as it was: when
    [global.ini] cannot be parsed, when it has no section [OBSWebSocket],
    and when the password is a value the parser refuses, [enable_websocket]
    raises [RuntimeError] and nothing has been written, whether or not a
    write would have gone through. *)
Theorem enable_websocket_fails_before_writing (self : OBSController) (fs : files)
    (bytes : string) :
  dict_get (obs_global_ini self) fs = Some bytes ->
  (exists ex, read_string (strip_bom (strip_bom bytes)) = Raise ex) \/
  (exists cfg, read_string (strip_bom (strip_bom bytes)) = Return cfg /\
               dict_get "OBSWebSocket" (sections cfg) = None) \/
  (password self <> "" /\ before_set_ok (password self) = false) ->
  enable_websocket read_string write_config before_set_ok write_fails write_leftover
    self fs = (Raise RuntimeError, fs).
Proof.
  intros Hfile Hwhy. unfold enable_websocket.
  rewrite (path_exists_file fs _ bytes Hfile), Hfile. cbn [negb]. unfold obind.
  destruct Hwhy as [(ex & Hr)|[(cfg & Hr & Hsec)|(Hne & Hb)]].
  - now rewrite Hr.
  - rewrite Hr. now rewrite (set_item_needs_section cfg _ _ _ Hsec).
  - destruct (read_string _) as [c0|]; [|reflexivity].
    destruct (set_item before_set_ok c0 _ _ _) as [c1|]; [|reflexivity].
    destruct (set_item before_set_ok c1 _ _ _) as [c2|]; [|reflexivity].
    now rewrite (set_item_refused c2 _ _ _ Hne Hb).
Qed.

(** When [enable_websocket] returns [True], [global.ini] holds one byte
    order mark followed by the printed configuration, in which the section
    [OBSWebSocket] has [ServerEnabled=true], the port and the password of
    the controller; every other option of that section, every other
    section, the order of the sections and every other file are as they
    were. *)
Theorem enable_websocket_sets_three_options (self : OBSController) (fs : files) :
  fst (enable_websocket read_string write_config before_set_ok write_fails write_leftover
         self fs) = Return true ->
  exists bytes old new,
    dict_get (obs_global_ini self) fs = Some bytes /\
    read_string (strip_bom (strip_bom bytes)) = Return old /\
    dict_get (obs_global_ini self)
      (snd (enable_websocket read_string write_config before_set_ok write_fails
              write_leftover self fs)) =
      Some (bom ++ write_config new)%string /\
    (forall p, p <> obs_global_ini self ->
       dict_get p (snd (enable_websocket read_string write_config before_set_ok
                          write_fails write_leftover self fs)) =
       dict_get p fs) /\
    get_option new "OBSWebSocket" "ServerEnabled" = Some "true" /\
    get_option new "OBSWebSocket" "ServerPort" = Some (render (port self)) /\
    get_option new "OBSWebSocket" "ServerPassword" = Some (password self) /\
    (forall opt, opt <> "ServerEnabled" -> opt <> "ServerPort" -> opt <> "ServerPassword" ->
       get_option new "OBSWebSocket" opt = get_option old "OBSWebSocket" opt) /\
    (forall sec, sec <> "OBSWebSocket" ->
       dict_get sec (sections new) = dict_get sec (sections old)) /\
    map fst (sections new) = map fst (sections old) /\
    defaults new = defaults old.
Proof.
  unfold enable_websocket.
  destruct (path_exists fs (obs_global_ini self)); cbn [negb]; [|discriminate].
  destruct (dict_get (obs_global_ini self) fs) as [bytes|]; [|discriminate].
  unfold obind.
  destruct (read_string (strip_bom (strip_bom bytes))) as [old|] eqn:Hread; [|discriminate].
  destruct (set_item before_set_ok old "OBSWebSocket" "ServerEnabled" "true")
    as [c1|] eqn:H1; [|discriminate].
  destruct (set_item before_set_ok c1 "OBSWebSocket" "ServerPort" (render (port self)))
    as [c2|] eqn:H2; [|discriminate].
  destruct (set_item before_set_ok c2 "OBSWebSocket" "ServerPassword" (password self))
    as [c3|] eqn:H3; [|discriminate].
  destruct write_fails; [discriminate|].
  cbn [fst snd]. intros _.
  apply set_item_spec in H1, H2, H3.
  destruct H1 as (D1 & K1 & S1 & G1 & O1).
  destruct H2 as (D2 & K2 & S2 & G2 & O2).
  destruct H3 as (D3 & K3 & S3 & G3 & O3).
  exists bytes, old, c3.
  split; [reflexivity|]. split; [exact Hread|].
  split; [apply dict_get_set_same|].
  split; [intros p Hp; now apply dict_get_set_other|].
  split; [rewrite O3, O2 by discriminate; exact G1|].
  split; [rewrite O3 by discriminate; exact G2|].
  split; [exact G3|].
  split; [intros opt Ha Hb Hc; now rewrite O3, O2, O1|].
  split; [intros sec Hne; now rewrite S3, S2, S1|].
  split; [now rewrite K3, K2, K1|now rewrite D3, D2, D1].
Qed.

(** A byte order mark at the head of [global.ini] makes no difference,
    and neither does a second one: the text handed to the parser, the
    outcome and, on success, the files written are those of the file
    without mark. *)
Theorem enable_websocket_tolerates_marks (self : OBSController) (fs : files)
    (text : string) :
  strip_prefix bom text = None ->
  let run := fun bytes =>
    enable_websocket read_string write_config before_set_ok write_fails write_leftover
      self (dict_set (obs_global_ini self) bytes fs) in
  fst (run (bom ++ text)%string) = fst (run text) /\
  fst (run (bom ++ bom ++ text)%string) = fst (run text) /\
  (fst (run text) = Return true ->
   snd (run (bom ++ text)%string) = snd (run text) /\
   snd (run (bom ++ bom ++ text)%string) = snd (run text)).
Proof.
  intros Hplain run. subst run. cbv beta. unfold enable_websocket.
  rewrite !(path_exists_file _ _ _ (dict_get_set_same _ _ _)).
  rewrite !dict_get_set_same. cbn [negb obind]. cbv zeta.
  rewrite !strip_bom_mark, !(strip_bom_plain text Hplain).
  match goal with |- context [match ?m with Return _ => _ | Raise _ => _ end] =>
    destruct m as [c|ex0] end; cbn [fst snd].
  - destruct write_fails; cbn [fst snd].
    + split; [reflexivity|]. split; [reflexivity|]. discriminate.
    + rewrite !dict_set_set. repeat split.
  - split; [reflexivity|]. split; [reflexivity|]. discriminate.
Qed.

(** ** [set_default_profile] *)

(** When the template cannot be used, [set_default_profile] raises
    [RuntimeError] before it removes or writes anything: this is so when
    [basic.ini] is missing from the module's profile (reading passes over
    it, and the first assignment finds no section), when it cannot be
    parsed, and when it lacks the section [SimpleOutput] or [AdvOut]. *)
Theorem set_default_profile_needs_template (self : OBSController) (fs : files) :
  dict_get (module_profile_path self ++ "/basic.ini")%string fs = None \/
  (exists text ex,
     dict_get (module_profile_path self ++ "/basic.ini")%string fs = Some text /\
     read_config_file text = Raise ex) \/
  (exists text cfg,
     dict_get (module_profile_path self ++ "/basic.ini")%string fs = Some text /\
     read_config_file text = Return cfg /\
     (dict_get "SimpleOutput" (sections cfg) = None \/
      dict_get "AdvOut" (sections cfg) = None)) ->
  set_default_profile read_config_file write_config before_set_ok as_posix
    rmtree_fails rmtree_leftover write_fails write_leftover self fs =
  (Raise RuntimeError, fs).
Proof.
  unfold set_default_profile, obind.
  intros [H|[(text & ex & H & Hr)|(text & cfg & H & Hr & Hsec)]]; rewrite H.
  - reflexivity.
  - now rewrite Hr.
  - rewrite Hr. destruct Hsec as [Hs|Ha].
    + now rewrite (set_item_needs_section cfg _ _ _ Hs).
    + destruct (set_item before_set_ok cfg "SimpleOutput" "FilePath" _) as [c1|] eqn:H1;
        [|reflexivity].
      apply set_item_spec in H1. destruct H1 as (_ & _ & S1 & _).
      rewrite (set_item_needs_section c1 "AdvOut"); [reflexivity|].
      rewrite S1 by discriminate. exact Ha.
Qed.

(** When [set_default_profile] returns, the profile directory of OBS
    holds [basic.ini] and nothing else: the file is the printed template
    with the three path options set to the replay path, every other option
    as in the template; whatever the directory held before is gone, and
    the files outside it are as they were. *)
Theorem set_default_profile_installs_one_file (self : OBSController) (fs : files) :
  fst (set_default_profile read_config_file write_config before_set_ok as_posix
         rmtree_fails rmtree_leftover write_fails write_leftover self fs) = Return tt ->
  exists text old new,
    dict_get (module_profile_path self ++ "/basic.ini")%string fs = Some text /\
    read_config_file text = Return old /\
    dict_get (obs_profiles_path self ++ "/obs_controller" ++ "/basic.ini")%string
      (snd (set_default_profile read_config_file write_config before_set_ok as_posix
              rmtree_fails rmtree_leftover write_fails write_leftover self fs)) =
      Some (write_config new) /\
    (forall p,
       under (obs_profiles_path self ++ "/obs_controller") p = true ->
       p <> (obs_profiles_path self ++ "/obs_controller" ++ "/basic.ini")%string ->
       dict_get p
         (snd (set_default_profile read_config_file write_config before_set_ok as_posix
                 rmtree_fails rmtree_leftover write_fails write_leftover self fs)) = None) /\
    (forall p,
       under (obs_profiles_path self ++ "/obs_controller") p = false ->
       dict_get p
         (snd (set_default_profile read_config_file write_config before_set_ok as_posix
                 rmtree_fails rmtree_leftover write_fails write_leftover self fs)) =
       dict_get p fs) /\
    get_option new "SimpleOutput" "FilePath" = Some (as_posix (replay_save_path self)) /\
    get_option new "AdvOut" "RecFilePath" = Some (as_posix (replay_save_path self)) /\
    get_option new "AdvOut" "FFFilePath" = Some (as_posix (replay_save_path self)) /\
    (forall sec opt,
       (sec, opt) <> ("SimpleOutput", "FilePath") ->
       (sec, opt) <> ("AdvOut", "RecFilePath") ->
       (sec, opt) <> ("AdvOut", "FFFilePath") ->
       get_option new sec opt = get_option old sec opt).
Proof.
  unfold set_default_profile, obind.
  destruct (dict_get (module_profile_path self ++ "/basic.ini")%string fs) as [text|];
    [|discriminate].
  destruct (read_config_file text) as [old|] eqn:Hread; [|discriminate].
  destruct (set_item before_set_ok old "SimpleOutput" "FilePath" _) as [c1|] eqn:H1;
    [|discriminate].
  destruct (set_item before_set_ok c1 "AdvOut" "RecFilePath" _) as [c2|] eqn:H2;
    [|discriminate].
  destruct (set_item before_set_ok c2 "AdvOut" "FFFilePath" _) as [c3|] eqn:H3;
    [|discriminate].
  cbv zeta.
  set (dest := (obs_profiles_path self ++ "/obs_controller")%string).
  assert (Hfile : (dest ++ "/basic.ini")%string =
                  (obs_profiles_path self ++ "/obs_controller" ++ "/basic.ini")%string).
  { unfold dest. apply string_app_assoc. }
  rewrite <- Hfile.
  assert (Hu : under dest (dest ++ "/basic.ini") = true)
    by apply (under_child dest "basic.ini").
  assert (Hopts :
    get_option c3 "SimpleOutput" "FilePath" = Some (as_posix (replay_save_path self)) /\
    get_option c3 "AdvOut" "RecFilePath" = Some (as_posix (replay_save_path self)) /\
    get_option c3 "AdvOut" "FFFilePath" = Some (as_posix (replay_save_path self)) /\
    (forall sec opt,
       (sec, opt) <> ("SimpleOutput", "FilePath") ->
       (sec, opt) <> ("AdvOut", "RecFilePath") ->
       (sec, opt) <> ("AdvOut", "FFFilePath") ->
       get_option c3 sec opt = get_option old sec opt)).
  { split; [rewrite (set_item_other c2 c3 _ _ _ _ _ H3), (set_item_other c1 c2 _ _ _ _ _ H2);
            [now apply (set_item_spec old c1) in H1|left; discriminate|left; discriminate]|].
    split; [rewrite (set_item_other c2 c3 _ _ _ _ _ H3);
            [now apply (set_item_spec c1 c2) in H2|right; discriminate]|].
    split; [now apply (set_item_spec c2 c3) in H3|].
    intros sec opt Ha Hb Hc.
    rewrite (set_item_other c2 c3 _ _ _ sec opt H3),
            (set_item_other c1 c2 _ _ _ sec opt H2),
            (set_item_other old c1 _ _ _ sec opt H1); [reflexivity| | |];
      now apply pair_differs. }
  unfold path_exists.
  destruct (dict_get dest fs) as [other|]; [discriminate|].
  destruct (dir_exists fs dest) eqn:Hdir.
  - destruct rmtree_fails; [discriminate|].
    destruct write_fails; [discriminate|]. cbn [fst snd]. intros _.
    exists text, old, c3.
    split; [reflexivity|]. split; [exact Hread|].
    split; [apply dict_get_set_same|].
    split; [intros p Hp Hne; rewrite dict_get_set_other by exact Hne;
            now apply dict_get_rmtree_inside|].
    split; [|exact Hopts].
    intros p Hp. rewrite dict_get_set_other.
    + now apply dict_get_rmtree_outside.
    + intros ->. congruence.
  - destruct write_fails; [discriminate|]. cbn [fst snd]. intros _.
    exists text, old, c3.
    split; [reflexivity|]. split; [exact Hread|].
    split; [apply dict_get_set_same|].
    split; [intros p Hp Hne; rewrite dict_get_set_other by exact Hne;
            now apply (dict_get_no_dir fs dest)|].
    split; [|exact Hopts].
    intros p Hp. rewrite dict_get_set_other; [reflexivity|].
    intros ->. congruence.
Qed.

End Library.

Lemma enable_websocket_fails_before_writing_witness :
  dict_get (obs_global_ini guest) disk_files = Some (bom ++ "[General]")%string /\
  password guest <> "" /\
  no_percent (password guest) = false /\
  enable_websocket parse_global print_config no_percent false [] guest disk_files =
    (Raise RuntimeError, disk_files).
Proof.
  assert (Hne : password guest <> "") by discriminate.
  split; [reflexivity|]. split; [exact Hne|]. split; [reflexivity|].
  apply (enable_websocket_fails_before_writing parse_global print_config no_percent
           false [] guest disk_files (bom ++ "[General]")%string eq_refl).
  right. right. split; [exact Hne|reflexivity].
Defined.

Lemma enable_websocket_sets_three_options_witness :
  fst (enable_websocket parse_global print_config no_percent false [] controller
         disk_files) = Return true /\
  dict_get "%AppData%/obs-studio/global.ini"
    (snd (enable_websocket parse_global print_config no_percent false [] controller
            disk_files)) =
    Some (bom ++ "[printed]")%string /\
  dict_get "profiles/obs_controller/basic.ini"
    (snd (enable_websocket parse_global print_config no_percent false [] controller
            disk_files)) =
    Some "[SimpleOutput]".
Proof.
  assert (H : fst (enable_websocket parse_global print_config no_percent false []
                     controller disk_files) = Return true) by reflexivity.
  destruct (enable_websocket_sets_three_options parse_global print_config no_percent
              false [] controller disk_files H)
    as (bytes & old & new & _ & _ & Hw & Hother & _).
  split; [exact H|]. split; [exact Hw|].
  rewrite Hother; [reflexivity|discriminate].
Defined.

Lemma enable_websocket_tolerates_marks_witness :
  strip_prefix bom "[General]" = None /\
  fst (enable_websocket parse_global print_config no_percent false [] controller
         (dict_set (obs_global_ini controller) (bom ++ bom ++ "[General]")%string disk_files)) =
  fst (enable_websocket parse_global print_config no_percent false [] controller
         (dict_set (obs_global_ini controller) "[General]" disk_files)) /\
  snd (enable_websocket parse_global print_config no_percent false [] controller
         (dict_set (obs_global_ini controller) (bom ++ bom ++ "[General]")%string disk_files)) =
  snd (enable_websocket parse_global print_config no_percent false [] controller
         (dict_set (obs_global_ini controller) "[General]" disk_files)).
Proof.
  assert (H : strip_prefix bom "[General]" = None) by reflexivity.
  destruct (enable_websocket_tolerates_marks parse_global print_config no_percent
              false [] controller disk_files "[General]" H) as (_ & H2 & H3).
  split; [exact H|]. split; [exact H2|]. exact (proj2 (H3 eq_refl)).
Defined.

Lemma set_default_profile_needs_template_witness :
  dict_get (module_profile_path controller ++ "/basic.ini")%string
    [("%AppData%/obs-studio/basic/profiles/obs_controller/basic.ini", "old")] = None /\
  set_default_profile parse_template print_config no_percent slashes false [] false []
    controller [("%AppData%/obs-studio/basic/profiles/obs_controller/basic.ini", "old")] =
  (Raise RuntimeError,
   [("%AppData%/obs-studio/basic/profiles/obs_controller/basic.ini", "old")]).
Proof.
  split; [reflexivity|].
  apply (set_default_profile_needs_template parse_template print_config no_percent
           slashes false [] false [] controller). left. reflexivity.
Defined.

Lemma set_default_profile_installs_one_file_witness :
  fst (set_default_profile parse_template print_config no_percent slashes false []
         false [] recorder disk_files) = Return tt /\
  dict_get "%AppData%/obs-studio/basic/profiles/obs_controller/service.json"
    (snd (set_default_profile parse_template print_config no_percent slashes false []
            false [] recorder disk_files)) = None /\
  dict_get "%AppData%/obs-studio/global.ini"
    (snd (set_default_profile parse_template print_config no_percent slashes false []
            false [] recorder disk_files)) =
    dict_get "%AppData%/obs-studio/global.ini" disk_files.
Proof.
  assert (H : fst (set_default_profile parse_template print_config no_percent slashes
                     false [] false [] recorder disk_files) = Return tt) by reflexivity.
  destruct (set_default_profile_installs_one_file parse_template print_config no_percent
              slashes false [] false [] recorder disk_files H)
    as (text & old & new & _ & _ & _ & Hin & Hout & _).
  split; [exact H|]. split.
  - apply Hin; [reflexivity|discriminate].
  - apply Hout. reflexivity.
Defined.

End IniMore.
